(** * ADU dashboard: the data-aggregation pipeline of [src/app/page.tsx]

    Shallow embedding of the seven [process*] functions of the dashboard
    component (lines 233-438) and of the JavaScript semantics they rely on:

    - a JS [number] is an IEEE-754 binary64 value, modelled with
      [SpecFloat.spec_float] at precision 53 and maximal exponent 1024;
    - record counters ([count++], [ADU++], ...) are kept in [N]: a JS array has
      fewer than 2^32 elements, so every counter stays far below 2^53 and the
      binary64 increments are exact;
    - an accumulator created as [{}] and used as a map is an association list
      in insertion order; a lookup [acc[k]] sees the object's own property
      first and otherwise the members inherited from [Object.prototype];
      [Object.values] / [Object.entries] enumerate the own keys in the order of
      [OrdinaryOwnPropertyKeys]: array-index keys in ascending numeric order,
      then the other string keys in insertion order;
    - [Array.prototype.sort] with a consistent comparator returns the stable
      sorted permutation; it is modelled by a stable insertion sort in which
      an element moves behind another exactly when the comparator returns a
      number greater than zero (NaN counts as zero). *)

From Stdlib Require Import ZArith List String Ascii Bool Lia Permutation Sorted.
From Stdlib Require Import DecimalString DecimalZ DecimalN.
From Stdlib Require Import Floats.SpecFloat.
From Stdlib Require Lists.Finite.
Import ListNotations.
Open Scope Z_scope.

(** ** JavaScript numbers *)

Definition number := spec_float.
Definition prec : Z := 53.
Definition emax : Z := 1024.

Definition js_add (x y : number) : number := SFadd prec emax x y.
Definition js_sub (x y : number) : number := SFsub prec emax x y.
Definition js_mul (x y : number) : number := SFmul prec emax x y.
Definition js_div (x y : number) : number := SFdiv prec emax x y.

(** The number [+0], the literal [0] of the source. *)
Definition js_zero : number := S754_zero false.

(** The binary64 value of an integer literal or of a counter. *)
Definition js_of_Z (z : Z) : number := binary_normalize prec emax z 0 false.
Definition js_of_N (n : N) : number := js_of_Z (Z.of_N n).

(** [x > 0] on numbers (false on NaN). *)
Definition js_gt0 (x : number) : bool := SFltb js_zero x.

(** Truthiness of a number: [0], [-0] and [NaN] are falsy. *)
Definition js_truthy (x : number) : bool :=
  match x with
  | S754_zero _ | S754_nan => false
  | _ => true
  end.

(** [Math.round]: the integral number closest to [x], ties towards +oo;
    integral values, infinities, zeros and NaN are returned unchanged, and a
    result of zero keeps the sign of [x] ([Math.round(-0.2)] is [-0]).  For a
    finite [x = (-1)^s * m * 2^e] with [e < 0] the result is
    [floor(x + 1/2) = floor((2n + 2^-e) / 2^(1-e))] with [n = (-1)^s * m];
    its magnitude is below 2^53, so [js_of_Z] represents it exactly. *)
Definition js_round (x : number) : number :=
  match x with
  | S754_finite s m e =>
      if 0 <=? e then x
      else
        let n := cond_Zopp s (Zpos m) in
        let d := 2 ^ (- e) in
        let r := (2 * n + d) / (2 * d) in
        if r =? 0 then S754_zero s else js_of_Z r
  | _ => x
  end.

(** Sign of a comparator result: [comparefn(a, b) > 0]. *)
Definition js_cmp_pos (v : number) : bool := js_gt0 v.

(** ** Strings: [Number.prototype.toString] and [parseInt] on integers *)

(** [toString] of an integral number, in decimal. *)
Definition js_toString (y : Z) : string := NilEmpty.string_of_int (Z.to_int y).

Definition is_digit (c : ascii) : bool :=
  let n := nat_of_ascii c in (48 <=? n)%nat && (n <=? 57)%nat.

Fixpoint digit_prefix (s : string) : string :=
  match s with
  | String c s' => if is_digit c then String c (digit_prefix s') else EmptyString
  | EmptyString => EmptyString
  end.

Definition is_js_space (c : ascii) : bool :=
  let n := nat_of_ascii c in (n =? 32)%nat || ((9 <=? n)%nat && (n <=? 13)%nat).

Fixpoint skip_space (s : string) : string :=
  match s with
  | String c s' => if is_js_space c then skip_space s' else s
  | EmptyString => EmptyString
  end.

(** [parseInt(s)] with the default radix on decimal text: leading white
    space, an optional sign, then the longest run of decimal digits; [None]
    is NaN (no digit).  The keys the code parses are produced by
    [js_toString], so the radix-16 prefix [0x] never occurs. *)
Definition js_parseInt (s : string) : option Z :=
  let s := skip_space s in
  let '(neg, rest) :=
    match s with
    | String "-"%char r => (true, r)
    | String "+"%char r => (false, r)
    | _ => (false, s)
    end in
  let ds := digit_prefix rest in
  match ds with
  | EmptyString => None
  | _ =>
      match NilEmpty.uint_of_string ds with
      | Some d => Some (if neg then - Z.of_uint d else Z.of_uint d)
      | None => None
      end
  end.

(** The comparator [(a, b) => parseInt(a) - parseInt(b)] is positive. *)
Definition parseInt_diff_pos (a b : string) : bool :=
  match js_parseInt a, js_parseInt b with
  | Some x, Some y => x - y >? 0
  | _, _ => false
  end.

(** ** Plain objects used as string-keyed maps *)

(** The members of [Object.prototype]; each one is truthy. *)
Definition object_prototype_members : list string :=
  ["constructor"; "__defineGetter__"; "__defineSetter__"; "hasOwnProperty";
   "__lookupGetter__"; "__lookupSetter__"; "isPrototypeOf";
   "propertyIsEnumerable"; "toString"; "valueOf"; "__proto__";
   "toLocaleString"]%string.

Definition is_proto_name (k : string) : bool :=
  existsb (String.eqb k) object_prototype_members.

(** An array index: the canonical decimal text of an integer below 2^32 - 1. *)
Definition array_index (k : string) : option N :=
  match k with
  | EmptyString => None
  | _ =>
      match NilEmpty.uint_of_string k with
      | Some d =>
          let n := N.of_uint d in
          if String.eqb (NilEmpty.string_of_uint (N.to_uint n)) k
             && (n <? 4294967295)%N
          then Some n else None
      | None => None
      end
  end.

Definition obj (V : Type) := list (string * V).

Section Obj.
Context {V : Type}.

Fixpoint own_get (o : obj V) (k : string) : option V :=
  match o with
  | [] => None
  | (k', v) :: o' => if String.eqb k' k then Some v else own_get o' k
  end.

(** Assignment [o[k] = v]: an existing own key keeps its position, a new
    key is appended. *)
Fixpoint own_set (o : obj V) (k : string) (v : V) : obj V :=
  match o with
  | [] => [(k, v)]
  | (k', v') :: o' =>
      if String.eqb k' k then (k, v) :: o' else (k', v') :: own_set o' k v
  end.

(** [if (!acc[k]) acc[k] = init; <update acc[k]>]: an own entry is updated;
    a key inherited from [Object.prototype] is truthy, so nothing is
    created and the update mutates the inherited member, not an own entry
    of [acc]; any other key gets a fresh entry [init], then updated. *)
Definition upsert (acc : obj V) (k : string) (init : V) (f : V -> V) : obj V :=
  match own_get acc k with
  | Some v => own_set acc k (f v)
  | None => if is_proto_name k then acc else own_set acc k (f init)
  end.
End Obj.

(** ** [Array.prototype.sort] *)

Section Sort.
Context {A : Type}.
(** [gt a b] is [comparefn(a, b) > 0]. *)
Variable gt : A -> A -> bool.

Fixpoint js_insert (x : A) (l : list A) : list A :=
  match l with
  | [] => [x]
  | y :: l' => if gt x y then y :: js_insert x l' else x :: y :: l'
  end.

Fixpoint js_sort (l : list A) : list A :=
  match l with
  | [] => []
  | x :: l' => js_insert x (js_sort l')
  end.
End Sort.

(** [OrdinaryOwnPropertyKeys] order of the own entries of an object. *)
Definition index_tagged {V} (o : obj V) : list (N * (string * V)) :=
  flat_map (fun kv => match array_index (fst kv) with
                      | Some n => [(n, kv)]
                      | None => []
                      end) o.

Definition own_entries {V} (o : obj V) : list (string * V) :=
  map snd (js_sort (fun a b => (fst b <? fst a)%N) (index_tagged o))
  ++ filter (fun kv => match array_index (fst kv) with
                       | Some _ => false
                       | None => true
                       end) o.

(** [Object.values]. *)
Definition own_values {V} (o : obj V) : list V := map snd (own_entries o).

(** ** Data model *)

Inductive classification := ADU | NON_ADU | POTENTIAL_ADU_CONVERSION.

Definition classification_eqb (a b : classification) : bool :=
  match a, b with
  | ADU, ADU | NON_ADU, NON_ADU
  | POTENTIAL_ADU_CONVERSION, POTENTIAL_ADU_CONVERSION => true
  | _, _ => false
  end.

(** [interface HousingData]; the passthrough fields are not read. *)
Record HousingData := {
  YEAR : Z;
  COUNTY : string;
  Classification : classification;
  JOB_VALUE : number
}.

Record UnitsByYearData := {
  uy_year : string;
  uy_ADU : N;
  uy_NON_ADU : N;
  uy_POTENTIAL_ADU_CONVERSION : N
}.

Record AduPercentageByYearData := {
  ap_year : string;
  ap_aduPercentage : number;
  ap_aduCount : N;
  ap_totalCount : N
}.

Record UnitsByJurisdictionData := {
  uj_county : string;
  uj_total : N;
  uj_ADU : N
}.

Record JobValueByCountyData := {
  jc_county : string;
  jc_avgValue : number;
  jc_count : N
}.

Record AverageAduJobValueByYearData := {
  aa_year : string;
  aa_avgAduValue : number;
  aa_count : N
}.

Record AduJobValuePercentageByYearData := {
  av_year : string;
  av_aduJobValuePercentage : number;
  av_aduValue : number;
  av_totalValue : number
}.

Record AvgJobValueByStructureTypeAndYearData := {
  at_year : string;
  at_ADU : number;
  at_NON_ADU : number;
  at_POTENTIAL_ADU_CONVERSION : number
}.

(** [interface ValueAggregate]. *)
Record ValueAggregate := { va_sum : number; va_count : N }.

Record ChartDataState := {
  unitsByYear : list UnitsByYearData;
  aduPercentageByYear : list AduPercentageByYearData;
  unitsByJurisdiction : list UnitsByJurisdictionData;
  aduJobValuePercentageByYear : list AduJobValuePercentageByYearData;
  avgJobValueByStructureTypeAndYear : list AvgJobValueByStructureTypeAndYearData;
  jobValueByCounty : list JobValueByCountyData;
  averageAduJobValueByYear : list AverageAduJobValueByYearData
}.

(** ** The pipeline *)

(** [processUnitsByYear] *)
Definition bump_units (c : classification) (u : UnitsByYearData) : UnitsByYearData :=
  match c with
  | ADU => {| uy_year := uy_year u; uy_ADU := uy_ADU u + 1;
              uy_NON_ADU := uy_NON_ADU u;
              uy_POTENTIAL_ADU_CONVERSION := uy_POTENTIAL_ADU_CONVERSION u |}
  | NON_ADU => {| uy_year := uy_year u; uy_ADU := uy_ADU u;
                  uy_NON_ADU := uy_NON_ADU u + 1;
                  uy_POTENTIAL_ADU_CONVERSION := uy_POTENTIAL_ADU_CONVERSION u |}
  | POTENTIAL_ADU_CONVERSION =>
      {| uy_year := uy_year u; uy_ADU := uy_ADU u; uy_NON_ADU := uy_NON_ADU u;
         uy_POTENTIAL_ADU_CONVERSION := uy_POTENTIAL_ADU_CONVERSION u + 1 |}
  end%N.

Definition units_init (year : string) : UnitsByYearData :=
  {| uy_year := year; uy_ADU := 0; uy_NON_ADU := 0; uy_POTENTIAL_ADU_CONVERSION := 0 |}.

Definition units_step (acc : obj UnitsByYearData) (row : HousingData) : obj UnitsByYearData :=
  let year := js_toString (YEAR row) in
  upsert acc year (units_init year) (bump_units (Classification row)).

Definition processUnitsByYear (rawData : list HousingData) : list UnitsByYearData :=
  js_sort (fun a b => parseInt_diff_pos (uy_year a) (uy_year b))
    (own_values (fold_left units_step rawData [])).

(** [processAduPercentageByYear] *)
Definition adu_percentage (ADU_ total : N) : number :=
  let aduPercentage :=
    if (0 <? total)%N
    then js_mul (js_div (js_of_N ADU_) (js_of_N total)) (js_of_Z 100)
    else js_zero in
  js_round aduPercentage.

Definition processAduPercentageByYear (rawData : list HousingData)
  : list AduPercentageByYearData :=
  map (fun u =>
         let total := (uy_ADU u + uy_NON_ADU u + uy_POTENTIAL_ADU_CONVERSION u)%N in
         {| ap_year := uy_year u;
            ap_aduPercentage := adu_percentage (uy_ADU u) total;
            ap_aduCount := uy_ADU u;
            ap_totalCount := total |})
      (processUnitsByYear rawData).

(** [processUnitsByJurisdiction]: the accumulator holds [(ADU, total)]. *)
Definition jurisdiction_bump (row : HousingData) (v : N * N) : N * N :=
  let '(a, t) := v in
  ((if classification_eqb (Classification row) ADU then a + 1 else a), t + 1)%N.

Definition jurisdiction_step (acc : obj (N * N)) (row : HousingData) : obj (N * N) :=
  upsert acc (COUNTY row) (0, 0)%N (jurisdiction_bump row).

Definition processUnitsByJurisdiction (rawData : list HousingData)
  : list UnitsByJurisdictionData :=
  firstn 8
    (js_sort (fun a b => Z.of_N (uj_ADU b) - Z.of_N (uj_ADU a) >? 0)
       (map (fun '(county, (a, t)) => {| uj_county := county; uj_ADU := a; uj_total := t |})
          (own_entries (fold_left jurisdiction_step rawData [])))).

(** [processAduJobValuePercentageByYear]: the accumulator holds
    [(aduValue, totalValue)]. *)
Definition value_share_bump (row : HousingData) (v : number * number) : number * number :=
  let '(aduValue, totalValue) := v in
  let totalValue := js_add totalValue (JOB_VALUE row) in
  let aduValue :=
    if classification_eqb (Classification row) ADU
    then js_add aduValue (JOB_VALUE row) else aduValue in
  (aduValue, totalValue).

Definition value_share_step (acc : obj (number * number)) (row : HousingData)
  : obj (number * number) :=
  upsert acc (js_toString (YEAR row)) (js_zero, js_zero) (value_share_bump row).

Definition value_share_percentage (aduValue totalValue : number) : number :=
  let ratio :=
    if js_gt0 totalValue
    then js_mul (js_div aduValue totalValue) (js_of_Z 100)
    else js_zero in
  js_round ratio.

Definition processAduJobValuePercentageByYear (rawData : list HousingData)
  : list AduJobValuePercentageByYearData :=
  js_sort (fun a b => parseInt_diff_pos (av_year a) (av_year b))
    (map (fun '(year, (aduValue, totalValue)) =>
            {| av_year := year;
               av_aduJobValuePercentage := value_share_percentage aduValue totalValue;
               av_aduValue := aduValue;
               av_totalValue := totalValue |})
       (own_entries (fold_left value_share_step rawData []))).

(** [processAverageJobValueByStructureTypeAndYear]: one [ValueAggregate] per
    classification. *)
Record TypeSums := {
  ts_ADU : ValueAggregate;
  ts_NON_ADU : ValueAggregate;
  ts_POTENTIAL_ADU_CONVERSION : ValueAggregate
}.

Definition va_zero : ValueAggregate := {| va_sum := js_zero; va_count := 0%N |}.

Definition va_add (v : number) (a : ValueAggregate) : ValueAggregate :=
  {| va_sum := js_add (va_sum a) v; va_count := (va_count a + 1)%N |}.

Definition type_sums_get (c : classification) (s : TypeSums) : ValueAggregate :=
  match c with
  | ADU => ts_ADU s
  | NON_ADU => ts_NON_ADU s
  | POTENTIAL_ADU_CONVERSION => ts_POTENTIAL_ADU_CONVERSION s
  end.

Definition type_sums_bump (row : HousingData) (s : TypeSums) : TypeSums :=
  match Classification row with
  | ADU => {| ts_ADU := va_add (JOB_VALUE row) (ts_ADU s);
              ts_NON_ADU := ts_NON_ADU s;
              ts_POTENTIAL_ADU_CONVERSION := ts_POTENTIAL_ADU_CONVERSION s |}
  | NON_ADU => {| ts_ADU := ts_ADU s;
                  ts_NON_ADU := va_add (JOB_VALUE row) (ts_NON_ADU s);
                  ts_POTENTIAL_ADU_CONVERSION := ts_POTENTIAL_ADU_CONVERSION s |}
  | POTENTIAL_ADU_CONVERSION =>
      {| ts_ADU := ts_ADU s; ts_NON_ADU := ts_NON_ADU s;
         ts_POTENTIAL_ADU_CONVERSION :=
           va_add (JOB_VALUE row) (ts_POTENTIAL_ADU_CONVERSION s) |}
  end.

Definition type_sums_init : TypeSums :=
  {| ts_ADU := va_zero; ts_NON_ADU := va_zero; ts_POTENTIAL_ADU_CONVERSION := va_zero |}.

Definition type_sums_step (acc : obj TypeSums) (row : HousingData) : obj TypeSums :=
  upsert acc (js_toString (YEAR row)) type_sums_init (type_sums_bump row).

(** [count > 0 ? Math.round(sum / count) : 0] *)
Definition average_raw (a : ValueAggregate) : number :=
  if (0 <? va_count a)%N then js_round (js_div (va_sum a) (js_of_N (va_count a)))
  else js_zero.

Definition processAverageJobValueByStructureTypeAndYear (rawData : list HousingData)
  : list AvgJobValueByStructureTypeAndYearData :=
  js_sort (fun a b => parseInt_diff_pos (at_year a) (at_year b))
    (map (fun '(year, sums) =>
            {| at_year := year;
               at_ADU := average_raw (ts_ADU sums);
               at_NON_ADU := average_raw (ts_NON_ADU sums);
               at_POTENTIAL_ADU_CONVERSION := average_raw (ts_POTENTIAL_ADU_CONVERSION sums) |})
       (own_entries (fold_left type_sums_step rawData []))).

(** [row.Classification === "ADU" && row.JOB_VALUE] *)
Definition valued_adu (row : HousingData) : bool :=
  classification_eqb (Classification row) ADU && js_truthy (JOB_VALUE row).

(** [Math.round(sum / count / 1000)] *)
Definition average_thousands (sum : number) (count : N) : number :=
  js_round (js_div (js_div sum (js_of_N count)) (js_of_Z 1000)).

(** [processJobValueByCounty] *)
Definition county_value_step (acc : obj ValueAggregate) (row : HousingData)
  : obj ValueAggregate :=
  if valued_adu row then upsert acc (COUNTY row) va_zero (va_add (JOB_VALUE row))
  else acc.

Definition processJobValueByCounty (rawData : list HousingData)
  : list JobValueByCountyData :=
  firstn 8
    (js_sort (fun a b => js_cmp_pos (js_sub (jc_avgValue b) (jc_avgValue a)))
       (map (fun '(county, a) =>
               {| jc_county := county;
                  jc_avgValue := average_thousands (va_sum a) (va_count a);
                  jc_count := va_count a |})
          (own_entries (fold_left county_value_step rawData [])))).

(** [processAverageAduJobValueByYear] *)
Definition year_value_step (acc : obj ValueAggregate) (row : HousingData)
  : obj ValueAggregate :=
  if valued_adu row
  then upsert acc (js_toString (YEAR row)) va_zero (va_add (JOB_VALUE row))
  else acc.

Definition processAverageAduJobValueByYear (rawData : list HousingData)
  : list AverageAduJobValueByYearData :=
  js_sort (fun a b => parseInt_diff_pos (aa_year a) (aa_year b))
    (map (fun '(year, a) =>
            {| aa_year := year;
               aa_avgAduValue := average_thousands (va_sum a) (va_count a);
               aa_count := va_count a |})
       (own_entries (fold_left year_value_step rawData []))).

(** [processData]: the state it hands to [setChartData]. *)
Definition processData (rawData : list HousingData) : ChartDataState :=
  {| unitsByYear := processUnitsByYear rawData;
     aduPercentageByYear := processAduPercentageByYear rawData;
     unitsByJurisdiction := processUnitsByJurisdiction rawData;
     aduJobValuePercentageByYear := processAduJobValuePercentageByYear rawData;
     avgJobValueByStructureTypeAndYear := processAverageJobValueByStructureTypeAndYear rawData;
     jobValueByCounty := processJobValueByCounty rawData;
     averageAduJobValueByYear := processAverageAduJobValueByYear rawData |}.

(** ** The stat cards ([getAduPermitShareSummary], [getAduPermitValueSummary],
    [getTopCounty]) *)

Record Summary := { trend : number; latest : number }.

(** The shape both summaries share: [{ trend: 0, latest: 0 }] for an empty
    array, otherwise the last entry's field and its difference to the entry
    before it (or to [0] when there is none). [None] is the [undefined]
    access, which a non-empty array never reaches. *)
Definition summary_of {A} (field : A -> number) (arr : list A) : option Summary :=
  if (List.length arr =? 0)%nat then Some {| trend := js_zero; latest := js_zero |}
  else
    match nth_error arr (List.length arr - 1) with
    | None => None
    | Some latestYear =>
        let previous :=
          if (1 <? List.length arr)%nat
          then option_map field (nth_error arr (List.length arr - 2))
          else Some js_zero in
        match previous with
        | None => None
        | Some p => Some {| trend := js_sub (field latestYear) p; latest := field latestYear |}
        end
    end.

Definition getAduPermitShareSummary (cd : ChartDataState) : option Summary :=
  summary_of ap_aduPercentage (aduPercentageByYear cd).

Definition getAduPermitValueSummary (cd : ChartDataState) : option Summary :=
  summary_of aa_avgAduValue (averageAduJobValueByYear cd).

Definition getTopCounty (cd : ChartDataState) : option string :=
  if (List.length (unitsByJurisdiction cd) =? 0)%nat then Some "N/A"%string
  else option_map uj_county (nth_error (unitsByJurisdiction cd) 0).


(** ** Generic facts: objects *)

Section ObjFacts.
Context {V : Type}.

Lemma own_get_set (o : obj V) k v k' :
  own_get (own_set o k v) k' = if String.eqb k k' then Some v else own_get o k'.
Proof.
  induction o as [|[k0 v0] o IH]; simpl.
  - reflexivity.
  - destruct (String.eqb_spec k0 k) as [->|Hne]; simpl.
    + destruct (String.eqb k k'); reflexivity.
    + rewrite IH. destruct (String.eqb_spec k k') as [E|]; [|reflexivity].
      subst k'. apply String.eqb_neq in Hne. now rewrite Hne.
Qed.

Lemma own_get_In_key (o : obj V) k :
  (exists v, own_get o k = Some v) <-> In k (map fst o).
Proof.
  induction o as [|[k0 v0] o IH]; simpl.
  - split; [intros [v H]; discriminate | tauto].
  - destruct (String.eqb_spec k0 k) as [->|Hne].
    + split; [tauto | eauto].
    + rewrite IH. split; [tauto | intros [H|H]; [congruence | exact H]].
Qed.

Lemma own_set_keys (o : obj V) k v :
  map fst (own_set o k v) =
  if existsb (String.eqb k) (map fst o) then map fst o else map fst o ++ [k].
Proof.
  induction o as [|[k0 v0] o IH]; simpl; [reflexivity|].
  destruct (String.eqb_spec k0 k) as [->|Hne]; simpl.
  - now rewrite String.eqb_refl.
  - rewrite IH. replace (String.eqb k k0) with false
      by (symmetry; apply String.eqb_neq; congruence).
    simpl. destruct (existsb (String.eqb k) (map fst o)); reflexivity.
Qed.

Lemma existsb_eqb_In k (ks : list string) :
  existsb (String.eqb k) ks = true <-> In k ks.
Proof.
  rewrite existsb_exists. split.
  - intros [x [Hx E]]. apply String.eqb_eq in E. now subst.
  - intros H. exists k. now rewrite String.eqb_refl.
Qed.

Lemma own_set_nodup (o : obj V) k v :
  NoDup (map fst o) -> NoDup (map fst (own_set o k v)).
Proof.
  intros H. rewrite own_set_keys.
  destruct (existsb (String.eqb k) (map fst o)) eqn:E; [exact H|].
  apply NoDup_app; [exact H | constructor; [simpl; tauto | constructor] |].
  intros a Ha [Ea|[]]. subst a. apply (proj2 (existsb_eqb_In k _)) in Ha. congruence.
Qed.

Lemma own_get_In (o : obj V) k v : own_get o k = Some v -> In (k, v) o.
Proof.
  induction o as [|[k0 v0] o IH]; simpl; [discriminate|].
  destruct (String.eqb_spec k0 k) as [->|]; [intros [= ->]; now left|].
  intros H; right; auto.
Qed.

Lemma In_own_get (o : obj V) k v :
  NoDup (map fst o) -> In (k, v) o -> own_get o k = Some v.
Proof.
  induction o as [|[k0 v0] o IH]; simpl; [tauto|].
  intros Hnd [E|H]; inversion Hnd as [|? ? Hnin Hnd']; subst.
  - inversion E; subst. now rewrite String.eqb_refl.
  - destruct (String.eqb_spec k0 k) as [->|]; [|auto].
    exfalso. apply Hnin. change k with (fst (k, v)). now apply in_map.
Qed.

Lemma upsert_get_other (acc : obj V) k init f k' :
  k <> k' -> own_get (upsert acc k init f) k' = own_get acc k'.
Proof.
  intros Hne. unfold upsert.
  apply String.eqb_neq in Hne.
  destruct (own_get acc k); [rewrite own_get_set, Hne; reflexivity|].
  destruct (is_proto_name k); [reflexivity|].
  rewrite own_get_set, Hne; reflexivity.
Qed.

Lemma upsert_nodup (acc : obj V) k init f :
  NoDup (map fst acc) -> NoDup (map fst (upsert acc k init f)).
Proof.
  intros H. unfold upsert.
  destruct (own_get acc k); [now apply own_set_nodup|].
  destruct (is_proto_name k); [exact H | now apply own_set_nodup].
Qed.
End ObjFacts.

(** The keys an object receives, in order: each key not yet present and not
    inherited from [Object.prototype], at its first occurrence. *)
Fixpoint fresh_keys (seen : list string) (ks : list string) : list string :=
  match ks with
  | [] => []
  | k :: ks' =>
      if existsb (String.eqb k) seen || is_proto_name k
      then fresh_keys seen ks'
      else k :: fresh_keys (seen ++ [k]) ks'
  end.

(** ** Grouping by a string key with [reduce] *)

Section Group.
Context {R V : Type}.
Variable key : R -> string.
Variable init : string -> V.
Variable f : R -> V -> V.

Definition group_step (acc : obj V) (r : R) : obj V :=
  upsert acc (key r) (init (key r)) (f r).

Definition rows_of (l : list R) (k : string) : list R :=
  filter (fun r => String.eqb (key r) k) l.

Definition fold_rows (rs : list R) (v : V) : V :=
  fold_left (fun v r => f r v) rs v.

Lemma group_get l acc k :
  own_get (fold_left group_step l acc) k =
  match own_get acc k with
  | Some v => Some (fold_rows (rows_of l k) v)
  | None =>
      if is_proto_name k then None
      else match rows_of l k with
           | [] => None
           | rs => Some (fold_rows rs (init k))
           end
  end.
Proof.
  revert acc. induction l as [|r l IH]; intros acc; simpl.
  - destruct (own_get acc k); [reflexivity|].
    destruct (is_proto_name k); reflexivity.
  - rewrite IH. unfold rows_of; simpl.
    destruct (String.eqb_spec (key r) k) as [Ek|Ek].
    + subst k. unfold group_step, upsert.
      destruct (own_get acc (key r)) as [v|] eqn:Eg.
      * rewrite own_get_set, String.eqb_refl. reflexivity.
      * destruct (is_proto_name (key r)) eqn:Ep; [now rewrite Eg|].
        rewrite own_get_set, String.eqb_refl. reflexivity.
    + unfold group_step. rewrite upsert_get_other by exact Ek. reflexivity.
Qed.

Lemma group_nodup l acc :
  NoDup (map fst acc) -> NoDup (map fst (fold_left group_step l acc)).
Proof.
  revert acc; induction l as [|r l IH]; intros acc H; simpl; [exact H|].
  apply IH. now apply upsert_nodup.
Qed.

Lemma group_keys l acc :
  map fst (fold_left group_step l acc) = map fst acc ++ fresh_keys (map fst acc) (map key l).
Proof.
  revert acc; induction l as [|r l IH]; intros acc; simpl.
  - now rewrite app_nil_r.
  - rewrite IH. unfold group_step, upsert.
    destruct (own_get acc (key r)) as [v|] eqn:Eg.
    + assert (Hin : In (key r) (map fst acc))
        by (apply own_get_In_key; eauto).
      apply existsb_eqb_In in Hin.
      rewrite own_set_keys, Hin. reflexivity.
    + assert (Hnin : existsb (String.eqb (key r)) (map fst acc) = false).
      { destruct (existsb _ _) eqn:E; [|reflexivity].
        apply existsb_eqb_In, own_get_In_key in E. destruct E as [v E]; congruence. }
      rewrite Hnin. simpl.
      destruct (is_proto_name (key r)); [reflexivity|].
      rewrite own_set_keys, Hnin, <- app_assoc. reflexivity.
Qed.
End Group.

(** ** Generic facts: the stable sort *)

Section SortFacts.
Context {A : Type}.
Variable gt : A -> A -> bool.

Lemma js_insert_perm x l : Permutation (js_insert gt x l) (x :: l).
Proof.
  induction l as [|y l IH]; simpl; [reflexivity|].
  destruct (gt x y); [|reflexivity].
  rewrite IH. apply perm_swap.
Qed.

Lemma js_sort_perm l : Permutation (js_sort gt l) l.
Proof.
  induction l as [|x l IH]; simpl; [reflexivity|].
  rewrite js_insert_perm. now apply perm_skip.
Qed.

(** The comparator orders the elements of interest by an integer rank. *)
Variable P : A -> Prop.
Variable rank : A -> Z.
Hypothesis gt_rank : forall a b, P a -> P b -> gt a b = (rank b <? rank a).

Let R a b := rank a <= rank b.

Lemma js_insert_hd x y l :
  P x -> Forall P l -> HdRel R y l -> R y x -> HdRel R y (js_insert gt x l).
Proof.
  intros Px Pl Hd Hyx. destruct l as [|z l]; simpl; [now constructor|].
  inversion Pl; subst.
  destruct (gt x z); constructor; [now inversion Hd | exact Hyx].
Qed.

Lemma js_insert_sorted x l :
  P x -> Forall P l -> Sorted R l -> Sorted R (js_insert gt x l).
Proof.
  intros Px; induction l as [|y l IH]; intros Pl Hs; simpl.
  - now repeat constructor.
  - inversion Pl as [|? ? Py Pl']; subst. inversion Hs; subst.
    rewrite (gt_rank x y Px Py). destruct (rank y <? rank x) eqn:E.
    + apply Z.ltb_lt in E. constructor; [now apply IH|].
      apply js_insert_hd; auto. unfold R; lia.
    + apply Z.ltb_ge in E. constructor; [exact Hs|]. constructor. exact E.
Qed.

Lemma js_sort_sorted l : Forall P l -> Sorted R (js_sort gt l).
Proof.
  induction l as [|x l IH]; intros Pl; simpl; [constructor|].
  inversion Pl; subst. apply js_insert_sorted; auto.
  apply (Permutation_Forall (Permutation_sym (js_sort_perm l))). exact H2.
Qed.


End SortFacts.


(** ** Generic facts: own-key order *)

Definition is_index (k : string) : bool :=
  match array_index k with Some _ => true | None => false end.


Lemma filter_split_perm {A} (p : A -> bool) (l : list A) :
  Permutation (filter p l ++ filter (fun x => negb (p x)) l) l.
Proof.
  induction l as [|a l IH]; simpl; [reflexivity|].
  destruct (p a); simpl.
  - now apply perm_skip.
  - rewrite <- Permutation_middle. now apply perm_skip.
Qed.

Lemma own_entries_perm {V} (o : obj V) : Permutation (own_entries o) o.
Proof.
  unfold own_entries.
  rewrite (Permutation_map snd (js_sort_perm _ _)).
  assert (E : map snd (index_tagged o) = filter (fun kv => is_index (fst kv)) o).
  { unfold index_tagged, is_index.
    induction o as [|[k v] o IH]; simpl; [reflexivity|].
    destruct (array_index k); simpl; now rewrite IH. }
  rewrite E.
  etransitivity; [|apply (filter_split_perm (fun kv => is_index (fst kv)))].
  apply Permutation_app_head.
  unfold is_index. apply Permutation_refl'. apply filter_ext.
  intros [k v]; simpl. destruct (array_index k); reflexivity.
Qed.


(** ** [toString] and [parseInt] *)

Lemma digit_prefix_uint d :
  digit_prefix (NilEmpty.string_of_uint d) = NilEmpty.string_of_uint d.
Proof. induction d; simpl; now rewrite ?IHd. Qed.

Lemma js_parseInt_toString y : js_parseInt (js_toString y) = Some y.
Proof.
  pose proof (DecimalZ.of_to y) as Hy.
  unfold js_toString, js_parseInt.
  destruct (Z.to_int y) as [d|d] eqn:E;
    (destruct d; [exfalso; simpl in Hy; subst y; simpl in E; discriminate|..]);
    simpl; rewrite digit_prefix_uint, NilEmpty.usu; simpl; rewrite <- Hy;
    reflexivity.
Qed.

Lemma js_toString_inj y y' : js_toString y = js_toString y' -> y = y'.
Proof.
  intros E. apply (f_equal js_parseInt) in E.
  rewrite !js_parseInt_toString in E. congruence.
Qed.

Section GroupEntries.
Context {R V : Type}.
Variable key : R -> string.
Variable init : string -> V.
Variable f : R -> V -> V.

Let step := group_step key init f.

Lemma group_entry l k v :
  In (k, v) (fold_left step l []) ->
  is_proto_name k = false /\ rows_of key l k <> [] /\
  v = fold_rows f (rows_of key l k) (init k).
Proof.
  intros H. apply In_own_get in H; [|apply group_nodup; constructor].
  unfold step in H. rewrite group_get in H. simpl in H.
  destruct (is_proto_name k); [discriminate|].
  destruct (rows_of key l k) as [|r rs]; [discriminate|].
  injection H as <-. repeat split; congruence.
Qed.

Lemma group_present l r :
  In r l -> is_proto_name (key r) = false ->
  In (key r, fold_rows f (rows_of key l (key r)) (init (key r))) (fold_left step l []).
Proof.
  intros Hr Hp. apply own_get_In. unfold step. rewrite group_get. simpl.
  rewrite Hp. destruct (rows_of key l (key r)) eqn:E; [|reflexivity].
  exfalso. assert (In r (rows_of key l (key r))) as Hin.
  { unfold rows_of. apply filter_In. now rewrite String.eqb_refl. }
  rewrite E in Hin. exact Hin.
Qed.

Lemma rows_of_In l k r : In r (rows_of key l k) -> In r l /\ key r = k.
Proof.
  unfold rows_of. rewrite filter_In. intros [H E]. now apply String.eqb_eq in E.
Qed.
End GroupEntries.

Lemma is_proto_name_toString y : is_proto_name (js_toString y) = false.
Proof.
  destruct (is_proto_name (js_toString y)) eqn:E; [|reflexivity].
  unfold is_proto_name in E. apply existsb_exists in E. destruct E as [p [Hp Ep]].
  apply String.eqb_eq in Ep. pose proof (js_parseInt_toString y) as H.
  rewrite Ep in H. simpl in Hp.
  repeat (destruct Hp as [<-|Hp]; [discriminate H|]). destruct Hp.
Qed.

(** Grouping by the year key [row.YEAR.toString()] is grouping by year. *)
Lemma year_key_eqb y y' :
  String.eqb (js_toString y) (js_toString y') = (y =? y').
Proof.
  destruct (String.eqb_spec (js_toString y) (js_toString y')) as [E|E];
    destruct (Z.eqb_spec y y') as [->|Ne]; try reflexivity.
  - apply js_toString_inj in E. contradiction.
  - contradiction.
Qed.

Lemma rows_of_year {A} (yr : A -> Z) (l : list A) y :
  rows_of (fun r => js_toString (yr r)) l (js_toString y) =
  filter (fun r => yr r =? y) l.
Proof.
  unfold rows_of. apply filter_ext. intros r. apply year_key_eqb.
Qed.

(** The rows kept by [if (row.Classification === "ADU" && row.JOB_VALUE)]. *)
Lemma fold_filter_step {V} (cond : HousingData -> bool) (step : obj V -> HousingData -> obj V)
      l acc :
  fold_left (fun acc r => if cond r then step acc r else acc) l acc =
  fold_left step (filter cond l) acc.
Proof.
  revert acc; induction l as [|r l IH]; intros acc; simpl; [reflexivity|].
  destruct (cond r); simpl; apply IH.
Qed.

(** ** Sorting by [parseInt(year)] *)

Definition years_ascending (ys : list string) : Prop :=
  exists zs, map js_parseInt ys = map Some zs /\ Sorted Z.le zs.

Definition year_rank (s : string) : Z :=
  match js_parseInt s with Some z => z | None => 0 end.

Lemma sort_by_year_ascending {A} (year : A -> string) (l : list A) :
  Forall (fun e => exists y, year e = js_toString y) l ->
  years_ascending (map year (js_sort (fun a b => parseInt_diff_pos (year a) (year b)) l)).
Proof.
  intros Hl.
  set (P := fun e => exists y, year e = js_toString y).
  assert (Hgt : forall a b, P a -> P b ->
            parseInt_diff_pos (year a) (year b) =
            (year_rank (year b) <? year_rank (year a))).
  { intros a b [ya Ea] [yb Eb]. unfold parseInt_diff_pos, year_rank.
    rewrite Ea, Eb, !js_parseInt_toString.
    destruct (Z.ltb_spec yb ya); destruct (Z.gtb_spec (ya - yb) 0); lia. }
  pose proof (js_sort_sorted _ P (fun e => year_rank (year e)) Hgt l Hl) as Hs.
  assert (Hf : Forall P (js_sort (fun a b => parseInt_diff_pos (year a) (year b)) l)).
  { eapply Permutation_Forall; [symmetry; apply js_sort_perm | exact Hl]. }
  generalize dependent (js_sort (fun a b => parseInt_diff_pos (year a) (year b)) l).
  intros s Hs Hf. exists (map (fun e => year_rank (year e)) s). split.
  - rewrite !map_map. apply map_ext_in. intros e He.
    rewrite Forall_forall in Hf. destruct (Hf e He) as [y Ey].
    unfold year_rank. now rewrite Ey, js_parseInt_toString.
  - clear Hf. induction Hs as [|a s Hs IH Hd]; simpl; constructor; [exact IH|].
    destruct Hd; simpl; constructor. assumption.
Qed.

Lemma fresh_keys_incl seen ks k : In k (fresh_keys seen ks) -> In k ks.
Proof.
  revert seen; induction ks as [|k0 ks IH]; intros seen; simpl; [tauto|].
  destruct (existsb (String.eqb k0) seen || is_proto_name k0).
  - intros H; right; eapply IH; eauto.
  - intros [->|H]; [now left | right; eapply IH; eauto].
Qed.

(** ** The accumulators of each view as a grouping *)

Definition year_of (r : HousingData) : string := js_toString (YEAR r).

Lemma units_fold l acc :
  fold_left units_step l acc =
  fold_left (group_step year_of units_init (fun r => bump_units (Classification r))) l acc.
Proof. reflexivity. Qed.

Lemma jurisdiction_fold l acc :
  fold_left jurisdiction_step l acc =
  fold_left (group_step COUNTY (fun _ => (0, 0)%N) jurisdiction_bump) l acc.
Proof. reflexivity. Qed.

Lemma value_share_fold l acc :
  fold_left value_share_step l acc =
  fold_left (group_step year_of (fun _ => (js_zero, js_zero)) value_share_bump) l acc.
Proof. reflexivity. Qed.

Lemma type_sums_fold l acc :
  fold_left type_sums_step l acc =
  fold_left (group_step year_of (fun _ => type_sums_init) type_sums_bump) l acc.
Proof. reflexivity. Qed.

Lemma county_value_fold l acc :
  fold_left county_value_step l acc =
  fold_left (group_step COUNTY (fun _ => va_zero) (fun r => va_add (JOB_VALUE r)))
    (filter valued_adu l) acc.
Proof.
  rewrite <- fold_filter_step. reflexivity.
Qed.

Lemma year_value_fold l acc :
  fold_left year_value_step l acc =
  fold_left (group_step year_of (fun _ => va_zero) (fun r => va_add (JOB_VALUE r)))
    (filter valued_adu l) acc.
Proof.
  rewrite <- fold_filter_step. reflexivity.
Qed.

(** Every key of a year-grouped accumulator is the text of a year. *)
Lemma year_entries_keys {V} (init : string -> V) f l :
  Forall (fun kv => exists y, fst kv = js_toString y)
    (own_entries (fold_left (group_step year_of init f) l [])).
Proof.
  apply Forall_forall. intros [k v] Hin.
  apply (Permutation_in _ (own_entries_perm _)) in Hin.
  apply group_entry in Hin. destruct Hin as [_ [Hne _]].
  destruct (rows_of year_of l k) as [|r rs] eqn:E; [contradiction|].
  assert (Hr : In r (rows_of year_of l k)) by (rewrite E; now left).
  apply rows_of_In in Hr. destruct Hr as [_ Hk]. now exists (YEAR r).
Qed.

Lemma bump_units_year rs u :
  uy_year (fold_rows (fun r => bump_units (Classification r)) rs u) = uy_year u.
Proof.
  revert u; induction rs as [|r rs IH]; intros u; simpl; [reflexivity|].
  unfold fold_rows in *; simpl. rewrite IH. now destruct (Classification r).
Qed.

Lemma bump_units_total rs u :
  let v := fold_rows (fun r => bump_units (Classification r)) rs u in
  (uy_ADU v + uy_NON_ADU v + uy_POTENTIAL_ADU_CONVERSION v)%N =
  (uy_ADU u + uy_NON_ADU u + uy_POTENTIAL_ADU_CONVERSION u + N.of_nat (List.length rs))%N.
Proof.
  revert u; induction rs as [|r rs IH]; intros u; simpl; [lia|].
  unfold fold_rows in *; simpl. rewrite IH.
  destruct (Classification r); simpl; lia.
Qed.

Lemma units_values_years l :
  Forall (fun e => exists y, uy_year e = js_toString y)
    (own_values (fold_left units_step l [])).
Proof.
  apply Forall_forall. intros v Hv. unfold own_values in Hv.
  apply in_map_iff in Hv. destruct Hv as [[k v'] [Ev Hin]]. simpl in Ev. subst v'.
  apply (Permutation_in _ (own_entries_perm _)) in Hin.
  rewrite units_fold in Hin. apply group_entry in Hin.
  destruct Hin as [_ [Hne ->]]. rewrite bump_units_year. simpl.
  destruct (rows_of year_of l k) as [|r rs] eqn:E; [contradiction|].
  assert (Hr : In r (rows_of year_of l k)) by (rewrite E; now left).
  apply rows_of_In in Hr. destruct Hr as [_ Hk]. now exists (YEAR r).
Qed.

Lemma jurisdiction_bump_fold rs a t :
  fold_rows jurisdiction_bump rs (a, t) =
  (a + N.of_nat (List.length (filter (fun r => classification_eqb (Classification r) ADU) rs)),
   t + N.of_nat (List.length rs))%N.
Proof.
  revert a t; induction rs as [|r rs IH]; intros a t; simpl.
  - f_equal; lia.
  - unfold fold_rows in *; simpl. rewrite IH.
    destruct (classification_eqb (Classification r) ADU); simpl; f_equal; lia.
Qed.

Lemma In_firstn_In {A} n (l : list A) x : In x (firstn n l) -> In x l.
Proof.
  intros H. rewrite <- (firstn_skipn n l). apply in_or_app. now left.
Qed.

Lemma filter_length_le' {A} (p : A -> bool) l :
  (List.length (filter p l) <= List.length l)%nat.
Proof.
  induction l as [|a l IH]; simpl; [lia|]. destruct (p a); simpl; lia.
Qed.

(** An entry of [processUnitsByJurisdiction] comes from an own entry of its
    accumulator. *)
Lemma jurisdiction_entry l e :
  In e (processUnitsByJurisdiction l) ->
  exists rs, rs <> [] /\ is_proto_name (uj_county e) = false /\
    rs = rows_of COUNTY l (uj_county e) /\
    uj_ADU e = N.of_nat (List.length (filter (fun r => classification_eqb (Classification r) ADU) rs)) /\
    uj_total e = N.of_nat (List.length rs).
Proof.
  unfold processUnitsByJurisdiction. intros He.
  apply In_firstn_In, (Permutation_in _ (js_sort_perm _ _)), in_map_iff in He.
  destruct He as [[k [a t]] [<- Hin]].
  apply (Permutation_in _ (own_entries_perm _)) in Hin.
  rewrite jurisdiction_fold in Hin. apply group_entry in Hin.
  destruct Hin as [Hp [Hne Hv]]. rewrite jurisdiction_bump_fold in Hv.
  injection Hv as Ha Ht. simpl.
  exists (rows_of COUNTY l k). repeat split; auto; lia.
Qed.

(** ** Generic facts: lists *)


Lemma Sorted_impl' {A} (R R' : A -> A -> Prop) l :
  (forall a b, R a b -> R' a b) -> Sorted R l -> Sorted R' l.
Proof.
  intros HR; induction 1 as [|a l Hs IH Hd]; constructor; [exact IH|].
  destruct Hd; constructor. auto.
Qed.



(** ** Integers below 2^53 are exact binary64 values *)

Lemma digits2_iter_xO p k : digits2_pos (Pos.iter xO p k) = (digits2_pos p + k)%positive.
Proof.
  induction k as [|k IH] using Pos.peano_ind.
  - simpl. now rewrite Pos.add_1_r.
  - rewrite Pos.iter_succ. simpl. rewrite IH. lia.
Qed.

Lemma digits2_low p : 2 ^ (Zpos (digits2_pos p) - 1) <= Zpos p.
Proof.
  induction p as [p IH|p IH|]; [| |simpl; lia];
  cbn [digits2_pos]; rewrite Pos2Z.inj_succ;
  replace (Z.succ (Zpos (digits2_pos p)) - 1) with (Z.succ (Zpos (digits2_pos p) - 1)) by lia;
  rewrite Z.pow_succ_r by lia; lia.
Qed.

Lemma round_aux_exact m e :
  fexp prec emax (Zpos (digits2_pos m) + e) = e -> e <= emax - prec ->
  binary_round_aux prec emax false (Zpos m) e loc_Exact = S754_finite false m e.
Proof.
  intros Hf He. unfold binary_round_aux, shr_fexp. cbn [Zdigits2].
  rewrite Hf, Z.sub_diag. cbn [shr shr_record_of_loc loc_of_shr_record round_nearest_even shr_m].
  cbn [Zdigits2]. rewrite Hf, Z.sub_diag. cbn [shr shr_record_of_loc shr_m].
  apply Z.leb_le in He. now rewrite He.
Qed.

Lemma js_of_Z_pos p : Zpos p < 2 ^ 53 -> exists m e, js_of_Z (Zpos p) = S754_finite false m e.
Proof.
  intros Hp.
  assert (Hd : Zpos (digits2_pos p) <= 53).
  { pose proof (digits2_low p). destruct (Z.le_gt_cases (Zpos (digits2_pos p)) 53); [assumption|].
    assert (2 ^ 53 <= 2 ^ (Zpos (digits2_pos p) - 1)) by (apply Z.pow_le_mono_r; lia). lia. }
  unfold js_of_Z, binary_normalize, binary_round, shl_align.
  assert (Hf : fexp prec emax (Zpos (digits2_pos p) + 0) = Zpos (digits2_pos p) - 53).
  { unfold fexp, emin, prec, emax. lia. }
  rewrite Hf.
  destruct (Zpos (digits2_pos p) - 53 - 0) as [|k|k] eqn:E.
  - exists p, 0. apply round_aux_exact.
    + rewrite Hf. lia.
    + unfold emax, prec. lia.
  - lia.
  - exists (Pos.iter xO p k), (Zpos (digits2_pos p) - 53). apply round_aux_exact.
    + rewrite digits2_iter_xO. unfold fexp, emin, prec, emax. lia.
    + unfold emax, prec. lia.
Qed.

(** ** Inputs and statements used by the claims *)

(** A record with an integral job value. *)
Definition housing (y : Z) (county : string) (c : classification) (v : Z) : HousingData :=
  {| YEAR := y; COUNTY := county; Classification := c; JOB_VALUE := js_of_Z v |}.

(** An ADU permit of value 100000 and an ADU permit of value 0 in one year. *)
Definition zero_value_input : list HousingData :=
  [housing 2020 "Alameda" ADU 100000; housing 2020 "Alameda" ADU 0].

(** One valued ADU permit in a county named like a member of [Object.prototype]. *)
Definition prototype_county_input : list HousingData :=
  [housing 2020 "toString" ADU 250000].

(** One ADU permit whose job value is absent: [sum += undefined] makes the
    sum NaN, so the value is modelled by NaN (falsy, like [undefined]). *)
Definition absent_value_input : list HousingData :=
  [{| YEAR := 2020; COUNTY := "Alameda"; Classification := ADU; JOB_VALUE := S754_nan |}].

(** Round half up of [100 * num / den] for [den > 0]: [floor(100 num / den + 1/2)]. *)
Definition round_half_up_percent (num den : Z) : Z := (200 * num + den) / (2 * den).

(** A year with 29 ADU permits out of 200. *)
Definition ratio_29_of_200_counts : list HousingData :=
  repeat (housing 2020 "Alameda" ADU 0) 29 ++ repeat (housing 2020 "Alameda" NON_ADU 0) 171.

(** A year whose ADU value is 29 out of a total value of 200. *)
Definition ratio_29_of_200_values : list HousingData :=
  [housing 2020 "Alameda" ADU 29; housing 2020 "Alameda" NON_ADU 171].

(** Binary64 sum, in input order and from [+0], as [acc.x += row.JOB_VALUE] forms it. *)
Definition js_sum (vs : list number) : number := fold_left js_add vs js_zero.

Definition records_of_year (l : list HousingData) (y : Z) : list HousingData :=
  filter (fun r => YEAR r =? y) l.

Definition count_class (c : classification) (rs : list HousingData) : N :=
  N.of_nat (List.length (filter (fun r => classification_eqb (Classification r) c) rs)).

Definition is_js_zero (x : number) : bool :=
  match x with S754_zero _ => true | _ => false end.

(** The field of an [AvgJobValueByStructureTypeAndYearData] entry for a
    classification. *)
Definition at_field (c : classification) (e : AvgJobValueByStructureTypeAndYearData) : number :=
  match c with
  | ADU => at_ADU e
  | NON_ADU => at_NON_ADU e
  | POTENTIAL_ADU_CONVERSION => at_POTENTIAL_ADU_CONVERSION e
  end.

(** The mean of values rounded to the nearest integer, in the number
    arithmetic of the source, and [0] for no value. *)
Definition mean_rounded (vs : list number) : number :=
  match vs with
  | [] => js_zero
  | _ => js_round (js_div (js_sum vs) (js_of_N (N.of_nat (List.length vs))))
  end.

(** The records of a county, [acc[row.COUNTY]]'s rows. *)
Definition county_records (l : list HousingData) (k : string) : list HousingData :=
  filter (fun r => String.eqb (COUNTY r) k) l.



(** ** Facts about the per-year views *)

Lemma bump_units_ADU rs u :
  uy_ADU (fold_rows (fun r => bump_units (Classification r)) rs u) =
  (uy_ADU u + count_class ADU rs)%N.
Proof.
  unfold count_class.
  revert u; induction rs as [|r rs IH]; intros u; simpl; [lia|].
  unfold fold_rows in *; simpl. rewrite IH.
  destruct (Classification r); simpl; lia.
Qed.

Lemma units_entry l u :
  In u (processUnitsByYear l) ->
  exists y, uy_year u = js_toString y /\
    uy_ADU u = count_class ADU (records_of_year l y) /\
    (uy_ADU u + uy_NON_ADU u + uy_POTENTIAL_ADU_CONVERSION u)%N =
    N.of_nat (List.length (records_of_year l y)) /\
    records_of_year l y <> [].
Proof.
  unfold processUnitsByYear. intros Hu.
  apply (Permutation_in _ (js_sort_perm _ _)) in Hu. unfold own_values in Hu.
  apply in_map_iff in Hu. destruct Hu as [[k v] [Ev Hin]]. simpl in Ev. subst v.
  apply (Permutation_in _ (own_entries_perm _)) in Hin.
  rewrite units_fold in Hin. apply group_entry in Hin.
  destruct Hin as [_ [Hne ->]].
  destruct (rows_of year_of l k) as [|r rs] eqn:E; [contradiction|].
  assert (Hr : In r (rows_of year_of l k)) by (rewrite E; now left).
  apply rows_of_In in Hr. destruct Hr as [_ Hk]. rewrite <- E in *. clear E.
  subst k. exists (YEAR r).
  replace (rows_of year_of l (year_of r)) with (records_of_year l (YEAR r)) in *
    by (symmetry; apply (rows_of_year YEAR)).
  rewrite bump_units_year, bump_units_total, bump_units_ADU. simpl.
  repeat split; try lia; exact Hne.
Qed.

Lemma value_share_rows rs a t :
  fold_rows value_share_bump rs (a, t) =
  (fold_left js_add
     (map JOB_VALUE (filter (fun r => classification_eqb (Classification r) ADU) rs)) a,
   fold_left js_add (map JOB_VALUE rs) t).
Proof.
  revert a t; induction rs as [|r rs IH]; intros a t; simpl; [reflexivity|].
  unfold fold_rows in *; simpl. rewrite IH.
  destruct (classification_eqb (Classification r) ADU); reflexivity.
Qed.

Lemma value_share_entry l v :
  In v (processAduJobValuePercentageByYear l) ->
  exists y, av_year v = js_toString y /\
    av_aduValue v =
      js_sum (map JOB_VALUE (filter (fun r => classification_eqb (Classification r) ADU)
                               (records_of_year l y))) /\
    av_totalValue v = js_sum (map JOB_VALUE (records_of_year l y)) /\
    av_aduJobValuePercentage v = value_share_percentage (av_aduValue v) (av_totalValue v).
Proof.
  unfold processAduJobValuePercentageByYear. intros Hv.
  apply (Permutation_in _ (js_sort_perm _ _)), in_map_iff in Hv.
  destruct Hv as [[k [a t]] [<- Hin]].
  apply (Permutation_in _ (own_entries_perm _)) in Hin.
  rewrite value_share_fold in Hin. apply group_entry in Hin.
  destruct Hin as [_ [Hne Hs]].
  destruct (rows_of year_of l k) as [|r rs] eqn:E; [contradiction|].
  assert (Hr : In r (rows_of year_of l k)) by (rewrite E; now left).
  apply rows_of_In in Hr. destruct Hr as [_ Hk]. rewrite <- E in *. clear E.
  subst k. exists (YEAR r).
  replace (rows_of year_of l (year_of r)) with (records_of_year l (YEAR r)) in Hs
    by (symmetry; apply (rows_of_year YEAR)).
  rewrite value_share_rows in Hs. injection Hs as -> ->.
  repeat split.
Qed.

(** ** Facts about the per-classification means *)

Lemma va_fold rs a :
  fold_left (fun a r => va_add (JOB_VALUE r) a) rs a =
  {| va_sum := fold_left js_add (map JOB_VALUE rs) (va_sum a);
     va_count := (va_count a + N.of_nat (List.length rs))%N |}.
Proof.
  revert a; induction rs as [|r rs IH]; intros a; simpl.
  - destruct a; simpl; f_equal; lia.
  - rewrite IH. simpl. f_equal. lia.
Qed.

Lemma type_sums_rows rs s c :
  type_sums_get c (fold_rows type_sums_bump rs s) =
  fold_left (fun a r => va_add (JOB_VALUE r) a)
    (filter (fun r => classification_eqb (Classification r) c) rs) (type_sums_get c s).
Proof.
  revert s; induction rs as [|r rs IH]; intros s; simpl; [reflexivity|].
  unfold fold_rows in *. rewrite IH. unfold type_sums_bump.
  destruct (Classification r), c; reflexivity.
Qed.

Lemma average_raw_mean vs :
  average_raw {| va_sum := js_sum vs; va_count := N.of_nat (List.length vs) |} = mean_rounded vs.
Proof. destruct vs; reflexivity. Qed.

Lemma js_sum_zeros vs :
  Forall (fun v => is_js_zero v = true) vs -> js_sum vs = js_zero.
Proof.
  unfold js_sum. induction 1 as [|v vs Hv H IH]; [reflexivity|].
  simpl. destruct v as [[]| | | ]; try discriminate Hv; exact IH.
Qed.

Lemma type_average_entry l e :
  In e (processAverageJobValueByStructureTypeAndYear l) ->
  exists y, at_year e = js_toString y /\
    forall c, at_field c e =
      mean_rounded (map JOB_VALUE
        (filter (fun r => classification_eqb (Classification r) c) (records_of_year l y))).
Proof.
  unfold processAverageJobValueByStructureTypeAndYear. intros He.
  apply (Permutation_in _ (js_sort_perm _ _)), in_map_iff in He.
  destruct He as [[k s] [<- Hin]].
  apply (Permutation_in _ (own_entries_perm _)) in Hin.
  rewrite type_sums_fold in Hin. apply group_entry in Hin.
  destruct Hin as [_ [Hne Hs]].
  destruct (rows_of year_of l k) as [|r rs] eqn:E; [contradiction|].
  assert (Hr : In r (rows_of year_of l k)) by (rewrite E; now left).
  apply rows_of_In in Hr. destruct Hr as [_ Hk]. rewrite <- E in Hs. clear E.
  subst k. exists (YEAR r). split; [reflexivity|]. intros c.
  assert (Ef : forall y s', at_field c
      {| at_year := y; at_ADU := average_raw (ts_ADU s');
         at_NON_ADU := average_raw (ts_NON_ADU s');
         at_POTENTIAL_ADU_CONVERSION := average_raw (ts_POTENTIAL_ADU_CONVERSION s') |} =
      average_raw (type_sums_get c s')) by (destruct c; reflexivity).
  rewrite Ef, Hs, type_sums_rows.
  replace (rows_of year_of l (year_of r)) with (records_of_year l (YEAR r))
    by (symmetry; apply (rows_of_year YEAR)).
  replace (type_sums_get c type_sums_init) with va_zero by (destruct c; reflexivity).
  rewrite va_fold, <- average_raw_mean, length_map. reflexivity.
Qed.

(** * Claims *)

(** C2: for every record of the input, the [unitsByYear] entry of its year
    exists, and its three classification counts add up to the number of
    input records of that year. *)
Theorem unitsByYear_sum_is_year_count (l : list HousingData) :
  Forall (fun r =>
    exists e, In e (processUnitsByYear l) /\ uy_year e = js_toString (YEAR r) /\
      (uy_ADU e + uy_NON_ADU e + uy_POTENTIAL_ADU_CONVERSION e)%N =
      N.of_nat (List.length (filter (fun r' => YEAR r' =? YEAR r) l))) l.
Proof.
  apply Forall_forall. intros r Hr.
  pose proof (group_present year_of units_init (fun r => bump_units (Classification r))
                l r Hr (is_proto_name_toString _)) as H.
  rewrite <- units_fold in H.
  eexists; split; [|split].
  - unfold processUnitsByYear.
    apply (Permutation_in _ (Permutation_sym (js_sort_perm _ _))).
    unfold own_values. apply in_map_iff. eexists; split; [|].
    2: apply (Permutation_in _ (Permutation_sym (own_entries_perm _))); exact H.
    reflexivity.
  - cbn [snd]. rewrite bump_units_year. reflexivity.
  - cbn [snd]. rewrite bump_units_total. simpl. unfold year_of. rewrite (rows_of_year YEAR). lia.
Qed.

(** C8: the five year-grouped views are sorted by ascending numeric year:
    each year text parses with [parseInt] and the parsed years ascend. *)
Theorem year_views_sorted_ascending (l : list HousingData) :
  years_ascending (map uy_year (processUnitsByYear l)) /\
  years_ascending (map ap_year (processAduPercentageByYear l)) /\
  years_ascending (map av_year (processAduJobValuePercentageByYear l)) /\
  years_ascending (map at_year (processAverageJobValueByStructureTypeAndYear l)) /\
  years_ascending (map aa_year (processAverageAduJobValueByYear l)).
Proof.
  assert (H1 : years_ascending (map uy_year (processUnitsByYear l))).
  { apply sort_by_year_ascending, units_values_years. }
  repeat split.
  - exact H1.
  - unfold processAduPercentageByYear. rewrite map_map. exact H1.
  - apply sort_by_year_ascending, Forall_map. rewrite value_share_fold.
    eapply Forall_impl; [|apply year_entries_keys]. intros [k [a t]]; simpl; auto.
  - apply sort_by_year_ascending, Forall_map. rewrite type_sums_fold.
    eapply Forall_impl; [|apply year_entries_keys]. intros [k s]; simpl; auto.
  - apply sort_by_year_ascending, Forall_map. rewrite year_value_fold.
    eapply Forall_impl; [|apply year_entries_keys]. intros [k s]; simpl; auto.
Qed.

(** C9: on the empty input every one of the seven views is the empty list
    (the pipeline is a total function, it raises nothing). *)
Theorem processData_empty :
  processData [] =
  {| unitsByYear := []; aduPercentageByYear := []; unitsByJurisdiction := [];
     aduJobValuePercentageByYear := []; avgJobValueByStructureTypeAndYear := [];
     jobValueByCounty := []; averageAduJobValueByYear := [] |}.
Proof. reflexivity. Qed.

(** C10: every [unitsByJurisdiction] entry has an ADU count at most its
    total, and a total of at least one record. *)
Theorem unitsByJurisdiction_adu_le_total (l : list HousingData) :
  Forall (fun e => (uj_ADU e <= uj_total e)%N /\ (1 <= uj_total e)%N)
    (processUnitsByJurisdiction l).
Proof.
  apply Forall_forall. intros e He.
  destruct (jurisdiction_entry l e He) as [rs [Hne [_ [_ [Ha Ht]]]]].
  rewrite Ha, Ht. split.
  - pose proof (filter_length_le' (fun r => classification_eqb (Classification r) ADU) rs).
    lia.
  - destruct rs; [contradiction|]. simpl. lia.
Qed.

(** C1 (the code at the failing input): a permit of value 0 is counted in
    the mean of [avgJobValueByStructureTypeAndYear] (ADU mean 50000 for the
    permits 100000 and 0), while [averageAduJobValueByYear] drops it (ADU
    mean 100 thousand). *)
Theorem zero_value_counted_in_type_average :
  map at_ADU (processAverageJobValueByStructureTypeAndYear zero_value_input) = [js_of_Z 50000] /\
  map aa_avgAduValue (processAverageAduJobValueByYear zero_value_input) = [js_of_Z 100] /\
  map aa_count (processAverageAduJobValueByYear zero_value_input) = [1%N].
Proof. vm_compute. repeat split; reflexivity. Qed.

(** C5 (the code at the failing input): a county named [toString] with a
    valued ADU permit gets no entry in [jobValueByCounty], while the same
    permit in an ordinary county does. *)
Theorem prototype_county_dropped :
  processJobValueByCounty prototype_county_input = [] /\
  processJobValueByCounty [housing 2020 "Alameda" ADU 250000] =
    [{| jc_county := "Alameda"; jc_avgValue := js_of_Z 250; jc_count := 1 |}].
Proof. vm_compute. split; reflexivity. Qed.

(** C3 (counterexample): with 29 ADU permits among 200 in a year, the
    percentage is 14, not the round-half-up value 15 of 100 * 29 / 200. *)
Lemma aduPercentage_not_round_half_up :
  exists p, In p (processAduPercentageByYear ratio_29_of_200_counts) /\
    ap_aduCount p = 29%N /\ ap_totalCount p = 200%N /\
    ap_aduPercentage p = js_of_Z 14 /\
    round_half_up_percent 29 200 = 15 /\
    ap_aduPercentage p <> js_of_Z (round_half_up_percent 29 200).
Proof.
  eexists. split; [vm_compute; left; reflexivity|].
  vm_compute. repeat split; discriminate.
Qed.

(** C7 (counterexample): with an ADU value of 29 out of a total value of 200
    in a year, the value share is 14, not the round-half-up value 15. *)
Lemma valueShare_not_round_half_up :
  exists v, In v (processAduJobValuePercentageByYear ratio_29_of_200_values) /\
    av_aduValue v = js_of_Z 29 /\ av_totalValue v = js_of_Z 200 /\
    av_aduJobValuePercentage v = js_of_Z 14 /\
    round_half_up_percent 29 200 = 15 /\
    av_aduJobValuePercentage v <> js_of_Z (round_half_up_percent 29 200).
Proof.
  eexists. split; [vm_compute; left; reflexivity|].
  vm_compute. repeat split; discriminate.
Qed.

(** C6 (the code at the failing input): a year whose only ADU permit has an
    absent job value (which [sum += row.JOB_VALUE] turns into NaN) has no
    valued ADU record, yet [avgJobValueByStructureTypeAndYear] reports NaN
    for ADU in that year, not 0; the guarded views drop the record. *)
Theorem absent_value_type_average_nan :
  filter valued_adu absent_value_input = [] /\
  map (fun e => (at_year e, at_ADU e))
      (processAverageJobValueByStructureTypeAndYear absent_value_input) =
    [("2020"%string, S754_nan)] /\
  processAverageAduJobValueByYear absent_value_input = [] /\
  processJobValueByCounty absent_value_input = [].
Proof. vm_compute. repeat split; reflexivity. Qed.

(** C3 (amended): for every year [y] listed in [aduPercentageByYear], the
    counts are those of the records of year [y], the total is at least 1,
    and the percentage is [Math.round((ADU / total) * 100)] evaluated in
    binary64 arithmetic (not the round-half-up of the exact ratio). *)
Theorem aduPercentage_binary64_round (l : list HousingData) :
  Forall (fun p =>
    exists y, ap_year p = js_toString y /\
      ap_aduCount p = count_class ADU (records_of_year l y) /\
      ap_totalCount p = N.of_nat (List.length (records_of_year l y)) /\
      (1 <= ap_totalCount p)%N /\
      ap_aduPercentage p =
        js_round (js_mul (js_div (js_of_N (ap_aduCount p)) (js_of_N (ap_totalCount p)))
                         (js_of_Z 100)))
    (processAduPercentageByYear l).
Proof.
  apply Forall_forall. intros p Hp. unfold processAduPercentageByYear in Hp.
  apply in_map_iff in Hp. destruct Hp as [u [<- Hu]].
  destruct (units_entry l u Hu) as [y [Ey [Ea [Et Hne]]]].
  exists y. cbn [ap_year ap_aduCount ap_totalCount ap_aduPercentage].
  assert (Ht : (1 <= uy_ADU u + uy_NON_ADU u + uy_POTENTIAL_ADU_CONVERSION u)%N).
  { rewrite Et. destruct (records_of_year l y); [contradiction|]. simpl. lia. }
  repeat split; auto.
  unfold adu_percentage. replace (0 <? _)%N with true by (symmetry; apply N.ltb_lt; lia).
  reflexivity.
Qed.

(** C7 (amended): for every year [y] listed in [aduJobValuePercentageByYear],
    [aduValue] and [totalValue] are the binary64 sums of the job values of the
    ADU records and of all records of year [y]; the percentage is
    [Math.round((aduValue / totalValue) * 100)] in binary64 arithmetic when
    [totalValue > 0] and [0] otherwise; in particular it is [0] when every
    record of year [y] has value zero. *)
Theorem valueShare_binary64_round (l : list HousingData) :
  Forall (fun v =>
    exists y, av_year v = js_toString y /\
      av_aduValue v =
        js_sum (map JOB_VALUE (filter (fun r => classification_eqb (Classification r) ADU)
                                 (records_of_year l y))) /\
      av_totalValue v = js_sum (map JOB_VALUE (records_of_year l y)) /\
      av_aduJobValuePercentage v =
        (if js_gt0 (av_totalValue v)
         then js_round (js_mul (js_div (av_aduValue v) (av_totalValue v)) (js_of_Z 100))
         else js_zero) /\
      (forallb (fun r => is_js_zero (JOB_VALUE r)) (records_of_year l y) = true ->
       av_aduJobValuePercentage v = js_zero))
    (processAduJobValuePercentageByYear l).
Proof.
  apply Forall_forall. intros v Hv.
  destruct (value_share_entry l v Hv) as [y [Ey [Ea [Et Ep]]]].
  exists y. repeat split; auto.
  - rewrite Ep. unfold value_share_percentage.
    destruct (js_gt0 (av_totalValue v)); reflexivity.
  - intros Hz. rewrite Ep, Et, js_sum_zeros.
    + reflexivity.
    + apply Forall_map, Forall_forall. intros r Hr.
      rewrite forallb_forall in Hz. now apply Hz.
Qed.



(** * Further properties of the dashboard *)

Lemma StronglySorted_app_last {A} (R : A -> A -> Prop) l x :
  StronglySorted R (l ++ [x]) -> forall y, In y l -> R y x.
Proof.
  induction l as [|a l IH]; simpl; [tauto|].
  intros Hs y [<-|Hy]; apply StronglySorted_inv in Hs; destruct Hs as [Hs Hf].
  - rewrite Forall_forall in Hf. apply Hf. apply in_or_app. right. now left.
  - now apply IH.
Qed.

Lemma summary_of_last {A} (field : A -> number) (rank : A -> Z) (arr : list A) :
  arr <> [] -> Sorted (fun a b => rank a <= rank b) arr ->
  exists x s, In x arr /\ (forall y, In y arr -> rank y <= rank x) /\
    summary_of field arr = Some s /\ latest s = field x.
Proof.
  intros Hne Hs. destruct (exists_last Hne) as [l' [x E]]. subst arr.
  apply Sorted_StronglySorted in Hs; [|intros a b c; lia].
  exists x. unfold summary_of.
  rewrite length_app. simpl.
  replace (List.length l' + 1 =? 0)%nat with false by (symmetry; apply Nat.eqb_neq; lia).
  replace (List.length l' + 1 - 1)%nat with (List.length l') by lia.
  rewrite nth_error_app2, Nat.sub_diag by lia. simpl.
  destruct (1 <? List.length l' + 1)%nat eqn:E1.
  - apply Nat.ltb_lt in E1.
    destruct (nth_error (l' ++ [x]) (List.length l' + 1 - 2)) eqn:E2.
    + simpl. eexists. split; [apply in_or_app; right; now left|]. split; [|split; reflexivity].
      intros y Hy. apply in_app_or in Hy. destruct Hy as [Hy|[<-|[]]]; [|lia].
      exact (StronglySorted_app_last _ _ _ Hs y Hy).
    + apply nth_error_None in E2. rewrite length_app in E2. simpl in E2. lia.
  - eexists. split; [apply in_or_app; right; now left|]. split; [|split; reflexivity].
    apply Nat.ltb_ge in E1. destruct l'; [|simpl in E1; lia].
    intros y [<-|[]]. lia.
Qed.

Lemma year_cmp_rank {A} (year : A -> string) a b :
  (exists y, year a = js_toString y) -> (exists y, year b = js_toString y) ->
  parseInt_diff_pos (year a) (year b) = (year_rank (year b) <? year_rank (year a)).
Proof.
  intros [ya Ea] [yb Eb]. unfold parseInt_diff_pos, year_rank.
  rewrite Ea, Eb, !js_parseInt_toString.
  destruct (Z.ltb_spec yb ya); destruct (Z.gtb_spec (ya - yb) 0); lia.
Qed.

Lemma year_rank_toString y : year_rank (js_toString y) = y.
Proof. unfold year_rank. now rewrite js_parseInt_toString. Qed.

Lemma sort_by_year_sorted {A} (year : A -> string) (l : list A) :
  Forall (fun e => exists y, year e = js_toString y) l ->
  Sorted (fun a b => year_rank (year a) <= year_rank (year b))
    (js_sort (fun a b => parseInt_diff_pos (year a) (year b)) l).
Proof.
  intros Hl. apply (js_sort_sorted _ (fun e => exists y, year e = js_toString y)
                      (fun e => year_rank (year e))); [|exact Hl].
  intros a b. apply year_cmp_rank.
Qed.

Lemma Sorted_map_rank {A B} (g : A -> B) (rank : B -> Z) l :
  Sorted (fun a b => rank (g a) <= rank (g b)) l ->
  Sorted (fun a b => rank a <= rank b) (map g l).
Proof.
  induction 1 as [|a l Hs IH Hd]; simpl; constructor; [exact IH|].
  destruct Hd; simpl; constructor. assumption.
Qed.

Lemma units_present l r :
  In r l -> exists u, In u (processUnitsByYear l) /\ uy_year u = js_toString (YEAR r).
Proof.
  intros Hr.
  pose proof (group_present year_of units_init (fun r => bump_units (Classification r))
                l r Hr (is_proto_name_toString _)) as H.
  rewrite <- units_fold in H.
  eexists; split.
  - unfold processUnitsByYear.
    apply (Permutation_in _ (Permutation_sym (js_sort_perm _ _))).
    unfold own_values. apply in_map_iff. eexists; split; [|].
    2: apply (Permutation_in _ (Permutation_sym (own_entries_perm _))); exact H.
    reflexivity.
  - cbn [snd]. rewrite bump_units_year. reflexivity.
Qed.

(** The ADU-share card: [{0, 0}] on empty data; otherwise its [latest] value
    is the rounded ADU percentage of the greatest year in the data. *)
Theorem aduShareSummary_latest_year (l : list HousingData) :
  (l = [] -> getAduPermitShareSummary (processData l) =
             Some {| trend := js_zero; latest := js_zero |}) /\
  (l <> [] ->
   exists ymax s, In ymax (map YEAR l) /\ (forall r, In r l -> YEAR r <= ymax) /\
     getAduPermitShareSummary (processData l) = Some s /\
     latest s = adu_percentage (count_class ADU (records_of_year l ymax))
                               (N.of_nat (List.length (records_of_year l ymax)))).
Proof.
  split; [intros ->; reflexivity|]. intros Hne.
  set (f := fun u : UnitsByYearData =>
         let total := (uy_ADU u + uy_NON_ADU u + uy_POTENTIAL_ADU_CONVERSION u)%N in
         {| ap_year := uy_year u;
            ap_aduPercentage := adu_percentage (uy_ADU u) total;
            ap_aduCount := uy_ADU u;
            ap_totalCount := total |}).
  assert (Eap : aduPercentageByYear (processData l) = map f (processUnitsByYear l))
    by reflexivity.
  assert (Hs : Sorted (fun a b => year_rank (ap_year a) <= year_rank (ap_year b))
                 (map f (processUnitsByYear l))).
  { apply (Sorted_map_rank f (fun a => year_rank (ap_year a))).
    apply sort_by_year_sorted, units_values_years. }
  assert (Hne' : map f (processUnitsByYear l) <> []).
  { destruct l as [|r l']; [contradiction|].
    destruct (units_present (r :: l') r (or_introl eq_refl)) as [u [Hu _]].
    destruct (processUnitsByYear (r :: l')); [contradiction|]. discriminate. }
  destruct (summary_of_last ap_aduPercentage (fun a => year_rank (ap_year a)) _ Hne' Hs)
    as [x [s [Hx [Hmax [Es El]]]]].
  apply in_map_iff in Hx. destruct Hx as [u [<- Hu]].
  destruct (units_entry l u Hu) as [y [Ey [Ea [Et Hy]]]].
  exists y, s. split; [|split; [|split]].
  - destruct (records_of_year l y) as [|r rs] eqn:E; [contradiction|].
    assert (Hr : In r (records_of_year l y)) by (rewrite E; now left).
    unfold records_of_year in Hr. apply filter_In in Hr. destruct Hr as [Hr Ry].
    apply Z.eqb_eq in Ry. rewrite <- Ry. now apply in_map.
  - intros r Hr. destruct (units_present l r Hr) as [u' [Hu' Ey']].
    specialize (Hmax (f u') (in_map f _ _ Hu')). simpl in Hmax.
    rewrite Ey', Ey, !year_rank_toString in Hmax. exact Hmax.
  - unfold getAduPermitShareSummary. rewrite Eap. exact Es.
  - rewrite El. simpl. rewrite <- Ea, <- Et. reflexivity.
Qed.

Lemma va_rows rs :
  fold_rows (fun r => va_add (JOB_VALUE r)) rs va_zero =
  {| va_sum := js_sum (map JOB_VALUE rs); va_count := N.of_nat (List.length rs) |}.
Proof. unfold fold_rows. rewrite va_fold. reflexivity. Qed.

Lemma year_average_entry l a :
  In a (processAverageAduJobValueByYear l) ->
  exists y, aa_year a = js_toString y /\
    let rs := records_of_year (filter valued_adu l) y in
    rs <> [] /\ aa_count a = N.of_nat (List.length rs) /\
    aa_avgAduValue a = average_thousands (js_sum (map JOB_VALUE rs)) (N.of_nat (List.length rs)).
Proof.
  unfold processAverageAduJobValueByYear. intros Ha.
  apply (Permutation_in _ (js_sort_perm _ _)), in_map_iff in Ha.
  destruct Ha as [[k s] [<- Hin]].
  apply (Permutation_in _ (own_entries_perm _)) in Hin.
  rewrite year_value_fold in Hin. apply group_entry in Hin.
  destruct Hin as [_ [Hne Hs]].
  destruct (rows_of year_of (filter valued_adu l) k) as [|r rs] eqn:E; [contradiction|].
  assert (Hr : In r (rows_of year_of (filter valued_adu l) k)) by (rewrite E; now left).
  apply rows_of_In in Hr. destruct Hr as [_ Hk]. rewrite <- E in *. clear E.
  subst k. exists (YEAR r).
  replace (rows_of year_of (filter valued_adu l) (year_of r))
    with (records_of_year (filter valued_adu l) (YEAR r)) in *
    by (symmetry; apply (rows_of_year YEAR)).
  rewrite va_rows in Hs. subst s. simpl. repeat split; assumption.
Qed.

Lemma year_average_present l r :
  In r l -> valued_adu r = true ->
  exists a, In a (processAverageAduJobValueByYear l) /\ aa_year a = js_toString (YEAR r).
Proof.
  intros Hr Hv.
  assert (Hr' : In r (filter valued_adu l)) by (apply filter_In; auto).
  pose proof (group_present year_of (fun _ => va_zero) (fun r => va_add (JOB_VALUE r))
                _ r Hr' (is_proto_name_toString _)) as H.
  rewrite <- (year_value_fold l []) in H.
  eexists; split.
  - unfold processAverageAduJobValueByYear.
    apply (Permutation_in _ (Permutation_sym (js_sort_perm _ _))).
    apply in_map_iff. eexists; split; [|].
    2: apply (Permutation_in _ (Permutation_sym (own_entries_perm _))); exact H.
    reflexivity.
  - reflexivity.
Qed.

(** The average-ADU-value card: [{0, 0}] when no record is a valued ADU;
    otherwise its [latest] value is the average (in thousands) of the valued
    ADU records of the greatest year among them. *)
Theorem aduValueSummary_latest_year (l : list HousingData) :
  ((forall r, In r l -> valued_adu r = false) ->
   getAduPermitValueSummary (processData l) = Some {| trend := js_zero; latest := js_zero |}) /\
  ((exists r, In r l /\ valued_adu r = true) ->
   exists ymax s,
     In ymax (map YEAR (filter valued_adu l)) /\
     (forall r, In r l -> valued_adu r = true -> YEAR r <= ymax) /\
     getAduPermitValueSummary (processData l) = Some s /\
     let rs := records_of_year (filter valued_adu l) ymax in
     latest s = average_thousands (js_sum (map JOB_VALUE rs)) (N.of_nat (List.length rs))).
Proof.
  split.
  - intros Hn. unfold getAduPermitValueSummary, processData. cbn [averageAduJobValueByYear].
    unfold processAverageAduJobValueByYear. rewrite year_value_fold.
    rewrite (filter_ext_in valued_adu (fun _ => false) l Hn), filter_false. reflexivity.
  - intros [r0 [Hr0 Hv0]].
    set (out := processAverageAduJobValueByYear l).
    assert (Hs : Sorted (fun a b => year_rank (aa_year a) <= year_rank (aa_year b)) out).
    { apply sort_by_year_sorted, Forall_map. rewrite year_value_fold.
      eapply Forall_impl; [|apply year_entries_keys]. intros [k s]; simpl; auto. }
    assert (Hne : out <> []).
    { destruct (year_average_present l r0 Hr0 Hv0) as [a [Ha _]].
      intros E. fold out in Ha. rewrite E in Ha. exact Ha. }
    destruct (summary_of_last aa_avgAduValue (fun a => year_rank (aa_year a)) _ Hne Hs)
      as [x [s [Hx [Hmax [Es El]]]]].
    destruct (year_average_entry l x Hx) as [y [Ey [Hy [Ec Ev]]]].
    exists y, s. split; [|split; [|split]].
    + destruct (records_of_year (filter valued_adu l) y) as [|r rs] eqn:E; [contradiction|].
      assert (Hr : In r (records_of_year (filter valued_adu l) y)) by (rewrite E; now left).
      unfold records_of_year in Hr. apply filter_In in Hr. destruct Hr as [Hr Ry].
      apply Z.eqb_eq in Ry. rewrite <- Ry. now apply in_map.
    + intros r Hr Hv. destruct (year_average_present l r Hr Hv) as [a [Ha Ea]].
      specialize (Hmax a Ha). simpl in Hmax.
      rewrite Ea, Ey, !year_rank_toString in Hmax. exact Hmax.
    + exact Es.
    + cbv zeta. rewrite El. exact Ev.
Qed.

Lemma year_keys_perm {V} (init : string -> V) f l :
  Permutation (map fst (own_entries (fold_left (group_step year_of init f) l [])))
              (map js_toString (nodup Z.eq_dec (map YEAR l))).
Proof.
  set (acc := fold_left (group_step year_of init f) l []).
  assert (Hp : Permutation (map fst (own_entries acc)) (map fst acc))
    by (apply Permutation_map, own_entries_perm).
  apply NoDup_Permutation.
  - eapply Permutation_NoDup; [symmetry; exact Hp|].
    apply group_nodup. constructor.
  - apply Finite.Injective_map_NoDup; [intros a b; apply js_toString_inj | apply NoDup_nodup].
  - intros k. split.
    + intros Hk. apply (Permutation_in _ Hp) in Hk. apply in_map_iff in Hk. destruct Hk as [[k' v] [Ek Hin]]. simpl in Ek. subst k'.
      apply group_entry in Hin. destruct Hin as [_ [Hne _]].
      destruct (rows_of year_of l k) as [|r rs] eqn:E; [contradiction|].
      assert (Hr : In r (rows_of year_of l k)) by (rewrite E; now left).
      apply rows_of_In in Hr. destruct Hr as [Hr Hk].
      rewrite <- Hk. unfold year_of. apply in_map, nodup_In, in_map, Hr.
    + intros Hk. apply in_map_iff in Hk. destruct Hk as [y [<- Hy]].
      apply nodup_In, in_map_iff in Hy. destruct Hy as [r [<- Hr]].
      pose proof (group_present year_of init f l r Hr (is_proto_name_toString _)) as H.
      change (js_toString (YEAR r)) with (year_of r).
      apply (Permutation_in _ (Permutation_sym Hp)).
      apply (in_map fst) in H. exact H.
Qed.

(** The four views keyed by every year have exactly one entry per distinct
    year of the data. *)
Theorem year_views_one_entry_per_year (l : list HousingData) :
  let years := map js_toString (nodup Z.eq_dec (map YEAR l)) in
  Permutation (map uy_year (processUnitsByYear l)) years /\
  Permutation (map ap_year (processAduPercentageByYear l)) years /\
  Permutation (map av_year (processAduJobValuePercentageByYear l)) years /\
  Permutation (map at_year (processAverageJobValueByStructureTypeAndYear l)) years.
Proof.
  intros years.
  assert (H1 : Permutation (map uy_year (processUnitsByYear l)) years).
  { unfold processUnitsByYear. rewrite (Permutation_map _ (js_sort_perm _ _)).
    unfold own_values. rewrite map_map.
    rewrite (map_ext_in _ fst).
    - rewrite units_fold. apply year_keys_perm.
    - intros [k u] Hin. apply (Permutation_in _ (own_entries_perm _)) in Hin.
      rewrite units_fold in Hin. apply group_entry in Hin. destruct Hin as [_ [_ ->]].
      simpl. rewrite bump_units_year. reflexivity. }
  split; [exact H1|]. split; [|split].
  - unfold processAduPercentageByYear. rewrite map_map. exact H1.
  - unfold processAduJobValuePercentageByYear. rewrite (Permutation_map _ (js_sort_perm _ _)).
    rewrite map_map, (map_ext _ fst) by (intros [k [a t]]; reflexivity).
    rewrite value_share_fold. apply year_keys_perm.
  - unfold processAverageJobValueByStructureTypeAndYear.
    rewrite (Permutation_map _ (js_sort_perm _ _)).
    rewrite map_map, (map_ext _ fst) by (intros [k s]; reflexivity).
    rewrite type_sums_fold. apply year_keys_perm.
Qed.

(** [processAverageAduJobValueByYear] has one entry per year with a valued ADU
    record; its [count] is the number of such records (at least one) and its
    average is their rounded mean in thousands. *)
Theorem averageAduJobValueByYear_entries (l : list HousingData) :
  Permutation (map aa_year (processAverageAduJobValueByYear l))
              (map js_toString (nodup Z.eq_dec (map YEAR (filter valued_adu l)))) /\
  Forall (fun a => exists y, aa_year a = js_toString y /\
     let rs := records_of_year (filter valued_adu l) y in
     aa_count a = N.of_nat (List.length rs) /\ (1 <= aa_count a)%N /\
     aa_avgAduValue a = average_thousands (js_sum (map JOB_VALUE rs)) (aa_count a))
    (processAverageAduJobValueByYear l).
Proof.
  split.
  - unfold processAverageAduJobValueByYear. rewrite (Permutation_map _ (js_sort_perm _ _)).
    rewrite map_map, (map_ext _ fst) by (intros [k s]; reflexivity).
    rewrite year_value_fold. apply year_keys_perm.
  - apply Forall_forall. intros a Ha.
    destruct (year_average_entry l a Ha) as [y [Ey [Hne [Ec Ev]]]].
    exists y. split; [exact Ey|]. cbv zeta. rewrite Ec. split; [reflexivity|]. split; [|exact Ev].
    destruct (records_of_year (filter valued_adu l) y); [contradiction|]. simpl. lia.
Qed.

Lemma jurisdiction_sorted_list l :
  exists S, processUnitsByJurisdiction l = firstn 8 S /\
    Sorted (fun a b => (uj_ADU b <= uj_ADU a)%N) S /\
    (forall e, In e S -> uj_ADU e = count_class ADU (county_records l (uj_county e)) /\
                         is_proto_name (uj_county e) = false /\
                         exists r, In r l /\ COUNTY r = uj_county e) /\
    (forall r, In r l -> is_proto_name (COUNTY r) = false ->
               exists e, In e S /\ uj_county e = COUNTY r).
Proof.
  set (acc := fold_left jurisdiction_step l []).
  set (mk := fun p : string * (N * N) =>
               let '(county, (a, t)) := p in
               {| uj_county := county; uj_ADU := a; uj_total := t |}).
  set (gtJ := fun a b : UnitsByJurisdictionData => Z.of_N (uj_ADU b) - Z.of_N (uj_ADU a) >? 0).
  set (rank := fun e : UnitsByJurisdictionData => - Z.of_N (uj_ADU e)).
  assert (Hgt : forall a b, True -> True -> gtJ a b = (rank b <? rank a)).
  { intros a b _ _. unfold gtJ, rank.
    destruct (Z.gtb_spec (Z.of_N (uj_ADU b) - Z.of_N (uj_ADU a)) 0);
      destruct (Z.ltb_spec (- Z.of_N (uj_ADU b)) (- Z.of_N (uj_ADU a))); lia. }
  exists (js_sort gtJ (map mk (own_entries acc))). split; [reflexivity|]. split; [|split].
  - eapply Sorted_impl'; [|apply (js_sort_sorted gtJ (fun _ => True) rank Hgt)].
    + intros a b H. unfold rank in H. lia.
    + apply Forall_forall; auto.
  - intros e He. apply (Permutation_in _ (js_sort_perm _ _)), in_map_iff in He.
    destruct He as [[k [a t]] [<- Hin]].
    apply (Permutation_in _ (own_entries_perm _)) in Hin.
    unfold acc in Hin. rewrite jurisdiction_fold in Hin. apply group_entry in Hin.
    destruct Hin as [Hpk [Hne Hv]]. rewrite jurisdiction_bump_fold in Hv.
    injection Hv as Ha _. split; [exact Ha|]. split; [exact Hpk|].
    destruct (rows_of COUNTY l k) as [|r rs] eqn:E; [contradiction|].
    assert (Hr : In r (rows_of COUNTY l k)) by (rewrite E; now left).
    apply rows_of_In in Hr. exists r. exact Hr.
  - intros r Hr Hp.
    pose proof (group_present COUNTY (fun _ => (0, 0)%N) jurisdiction_bump l r Hr Hp) as Hin.
    rewrite <- jurisdiction_fold in Hin. fold acc in Hin.
    apply (Permutation_in _ (Permutation_sym (own_entries_perm _))) in Hin.
    eexists. split.
    + apply (Permutation_in _ (Permutation_sym (js_sort_perm _ _))).
      apply in_map. exact Hin.
    + destruct (fold_rows _ _ _) as [a t]. reflexivity.
Qed.

(** The top-county card: ["N/A"] when no county survives the object
    accumulator; otherwise a county of the data whose ADU count is maximal. *)
Theorem getTopCounty_most_adu (l : list HousingData) :
  ((forall r, In r l -> is_proto_name (COUNTY r) = true) ->
   getTopCounty (processData l) = Some "N/A"%string) /\
  ((exists r, In r l /\ is_proto_name (COUNTY r) = false) ->
   exists c, getTopCounty (processData l) = Some c /\ (exists r, In r l /\ COUNTY r = c) /\
     forall r, In r l -> is_proto_name (COUNTY r) = false ->
       (count_class ADU (county_records l (COUNTY r)) <= count_class ADU (county_records l c))%N).
Proof.
  destruct (jurisdiction_sorted_list l) as [S [Eout [Hs [Hent Hall]]]].
  unfold getTopCounty. cbn [processData unitsByJurisdiction]. rewrite Eout.
  split.
  - intros Hp. destruct S as [|e S']; [reflexivity|].
    exfalso. destruct (Hent e (or_introl eq_refl)) as [_ [Hpe [r [Hr Er]]]].
    rewrite <- Er, Hp in Hpe by exact Hr. discriminate.
  - intros [r0 [Hr0 Hp0]].
    destruct S as [|e0 S']; [destruct (Hall r0 Hr0 Hp0) as [e [[] _]]|].
    exists (uj_county e0). split; [reflexivity|].
    destruct (Hent e0 (or_introl eq_refl)) as [Ha0 [_ Hc0]]. split; [exact Hc0|].
    intros r Hr Hp. destruct (Hall r Hr Hp) as [e [He Ec]].
    destruct (Hent e He) as [Ha _]. rewrite <- Ec, <- Ha, <- Ha0.
    apply Sorted_StronglySorted in Hs; [|intros a b c; lia].
    destruct He as [<-|He]; [lia|].
    apply StronglySorted_inv in Hs. destruct Hs as [_ Hf].
    rewrite Forall_forall in Hf. exact (Hf e He).
Qed.

(** [processJobValueByCounty] keeps at most eight counties; each entry counts
    the county's valued ADU records and averages their values; with at most
    eight such counties none is dropped. *)
Theorem jobValueByCounty_entries (l : list HousingData) :
  let out := processJobValueByCounty l in
  (List.length out <= 8)%nat /\
  Forall (fun e =>
    let rs := county_records (filter valued_adu l) (jc_county e) in
    jc_count e = N.of_nat (List.length rs) /\ (1 <= jc_count e)%N /\
    jc_avgValue e = average_thousands (js_sum (map JOB_VALUE rs)) (jc_count e)) out /\
  ((List.length (nodup string_dec (map COUNTY (filter valued_adu l))) <= 8)%nat ->
   forall r, In r l -> valued_adu r = true -> is_proto_name (COUNTY r) = false ->
   exists e, In e out /\ jc_county e = COUNTY r).
Proof.
  intros out.
  set (acc := fold_left county_value_step l []).
  set (mk := fun p : string * ValueAggregate =>
               let '(county, a) := p in
               {| jc_county := county;
                  jc_avgValue := average_thousands (va_sum a) (va_count a);
                  jc_count := va_count a |}).
  set (S := js_sort (fun a b => js_cmp_pos (js_sub (jc_avgValue b) (jc_avgValue a)))
              (map mk (own_entries acc))).
  assert (Eout : out = firstn 8 S) by reflexivity.
  assert (Eacc : acc = fold_left (group_step COUNTY (fun _ => va_zero)
                                   (fun r => va_add (JOB_VALUE r))) (filter valued_adu l) [])
    by apply county_value_fold.
  split; [|split].
  - rewrite Eout. apply firstn_le_length.
  - apply Forall_forall. intros e He. rewrite Eout in He.
    apply In_firstn_In, (Permutation_in _ (js_sort_perm _ _)), in_map_iff in He.
    destruct He as [[k a] [<- Hin]].
    apply (Permutation_in _ (own_entries_perm _)) in Hin.
    rewrite Eacc in Hin. apply group_entry in Hin.
    destruct Hin as [_ [Hne Hv]]. subst a. unfold fold_rows. rewrite va_fold.
    cbn. change (rows_of COUNTY (filter valued_adu l) k)
           with (county_records (filter valued_adu l) k) in *.
    split; [lia|]. split; [|reflexivity].
    destruct (county_records (filter valued_adu l) k); [contradiction|]. simpl. lia.
  - intros Hlen r Hr Hv Hp.
    assert (Hr' : In r (filter valued_adu l)) by (apply filter_In; auto).
    assert (Hall : firstn 8 S = S).
    { apply firstn_all2. unfold S.
      rewrite (Permutation_length (js_sort_perm _ _)), length_map,
              (Permutation_length (own_entries_perm _)).
      rewrite <- (length_map fst acc).
      assert (Hk : map fst acc = fresh_keys [] (map COUNTY (filter valued_adu l)))
        by (rewrite Eacc, group_keys; reflexivity).
      assert (Hnd : NoDup (map fst acc))
        by (rewrite Eacc; apply group_nodup; constructor).
      etransitivity; [|exact Hlen]. apply NoDup_incl_length; [exact Hnd|].
      intros k Hin. rewrite Hk in Hin. apply fresh_keys_incl in Hin.
      now apply nodup_In. }
    pose proof (group_present COUNTY (fun _ => va_zero) (fun r => va_add (JOB_VALUE r))
                  _ r Hr' Hp) as Hin.
    rewrite <- Eacc in Hin.
    apply (Permutation_in _ (Permutation_sym (own_entries_perm _))) in Hin.
    eexists. split.
    + rewrite Eout, Hall. unfold S.
      apply (Permutation_in _ (Permutation_sym (js_sort_perm _ _))).
      apply in_map. exact Hin.
    + reflexivity.
Qed.

Lemma js_div_self m e :
  js_div (S754_finite false m e) (S754_finite false m e) = js_of_Z 1.
Proof.
  unfold js_div, SFdiv, SFdiv_core_binary.
  rewrite !Z.sub_diag.
  replace (fexp prec emax 0) with (-53) by reflexivity.
  replace (Z.min (-53) 0) with (-53) by reflexivity.
  replace (0 - -53) with 53 by reflexivity.
  rewrite Z.shiftl_mul_pow2 by lia.
  assert (E : Z.div_eucl (Zpos m * 2 ^ 53) (Zpos m) = (2 ^ 53, 0)).
  { pose proof (Z.div_eucl_eq (Zpos m * 2 ^ 53) (Zpos m)) as H.
    unfold Z.div, Z.modulo in *. 
    rewrite (Z.mul_comm (Zpos m) (2 ^ 53)).
    assert (Hd : (2 ^ 53 * Zpos m) / Zpos m = 2 ^ 53) by (apply Z.div_mul; lia).
    assert (Hm : (2 ^ 53 * Zpos m) mod Zpos m = 0) by (apply Z.mod_mul; lia).
    unfold Z.div, Z.modulo in Hd, Hm.
    destruct (Z.div_eucl (2 ^ 53 * Zpos m) (Zpos m)). simpl in *. congruence. }
  rewrite E. unfold new_location. destruct (Z.even (Zpos m)); reflexivity.
Qed.

Lemma adu_percentage_edges (a t : N) :
  (0 < t)%N -> (t < 2 ^ 53)%N ->
  (a = 0%N -> adu_percentage a t = js_zero) /\
  (a = t -> adu_percentage a t = js_of_Z 100).
Proof.
  intros H0 H53. destruct t as [|p]; [lia|].
  destruct (js_of_Z_pos p) as [m [e Em]]; [lia|].
  unfold adu_percentage. replace (0 <? N.pos p)%N with true by reflexivity.
  unfold js_of_N. cbn [Z.of_N]. rewrite Em. split.
  - intros ->. reflexivity.
  - intros ->. cbn [Z.of_N]. rewrite Em, js_div_self. reflexivity.
Qed.

(** In [processAduPercentageByYear] the ADU count never exceeds the total, a
    year without ADU shows 0 % and a year of ADU only shows 100 %. *)
Theorem aduPercentage_edge_values (l : list HousingData)
  (Hlen : (N.of_nat (List.length l) < 4294967296)%N) :
  Forall (fun p =>
    (ap_aduCount p <= ap_totalCount p)%N /\
    (ap_aduCount p = 0%N -> ap_aduPercentage p = js_zero) /\
    (ap_aduCount p = ap_totalCount p -> ap_aduPercentage p = js_of_Z 100))
    (processAduPercentageByYear l).
Proof.
  apply Forall_forall. intros p Hp. unfold processAduPercentageByYear in Hp.
  apply in_map_iff in Hp. destruct Hp as [u [<- Hu]].
  destruct (units_entry l u Hu) as [y [_ [Ea [Et Hne]]]].
  cbn [ap_aduCount ap_totalCount ap_aduPercentage].
  assert (Hle : (List.length (records_of_year l y) <= List.length l)%nat)
    by apply filter_length_le'.
  assert (H1 : (1 <= List.length (records_of_year l y))%nat)
    by (destruct (records_of_year l y); [contradiction|simpl; lia]).
  pose proof (filter_length_le' (fun r => classification_eqb (Classification r) ADU)
                (records_of_year l y)) as Hc.
  assert (Ht0 : (0 < uy_ADU u + uy_NON_ADU u + uy_POTENTIAL_ADU_CONVERSION u)%N)
    by (rewrite Et; lia).
  assert (Ht53 : (uy_ADU u + uy_NON_ADU u + uy_POTENTIAL_ADU_CONVERSION u < 2 ^ 53)%N)
    by (rewrite Et; lia).
  destruct (adu_percentage_edges (uy_ADU u) _ Ht0 Ht53) as [Z0 Z1].
  cbv zeta. split; [|split; assumption].
  lia.
Qed.

(** In [processAduJobValuePercentageByYear] a year without ADU record has ADU
    value 0 and ADU share 0, whatever the other values. *)
Theorem valueShare_zero_without_adu (l : list HousingData) :
  Forall (fun v => exists y, av_year v = js_toString y /\
    (forallb (fun r => negb (classification_eqb (Classification r) ADU))
             (records_of_year l y) = true ->
     av_aduValue v = js_zero /\ av_aduJobValuePercentage v = js_zero))
    (processAduJobValuePercentageByYear l).
Proof.
  apply Forall_forall. intros v Hv.
  destruct (value_share_entry l v Hv) as [y [Ey [Ea [_ Ep]]]].
  exists y. split; [exact Ey|]. intros Hn.
  assert (E0 : filter (fun r => classification_eqb (Classification r) ADU)
                 (records_of_year l y) = []).
  { rewrite forallb_forall in Hn.
    rewrite (filter_ext_in _ (fun _ => false)), filter_false; [reflexivity|].
    intros r Hr. specialize (Hn r Hr). now destruct (classification_eqb _ _). }
  rewrite E0 in Ea. split; [exact Ea|].
  rewrite Ep, Ea. unfold value_share_percentage.
  destruct (av_totalValue v) as [[]|[]| |[] m e]; reflexivity.
Qed.



Lemma aduPercentage_edge_values_witness :
  (N.of_nat (List.length zero_value_input) < 4294967296)%N /\
  Forall (fun p =>
    (ap_aduCount p <= ap_totalCount p)%N /\
    (ap_aduCount p = 0%N -> ap_aduPercentage p = js_zero) /\
    (ap_aduCount p = ap_totalCount p -> ap_aduPercentage p = js_of_Z 100))
    (processAduPercentageByYear zero_value_input).
Proof.
  assert (H : (N.of_nat (List.length zero_value_input) < 4294967296)%N)
    by (vm_compute; reflexivity).
  exact (conj H (aduPercentage_edge_values zero_value_input H)).
Defined.

(** Every entry of [avgJobValueByStructureTypeAndYear] belongs to a year of
    the data, and its value for each classification is the rounded mean of
    the job values of all records of that year and classification (no
    truthiness guard: zero and NaN values are in the sum and the count), or
    [0] when the classification has no record in that year. *)
Theorem typeAverage_entries (l : list HousingData) :
  Forall (fun e =>
    exists y, at_year e = js_toString y /\ In y (map YEAR l) /\
      forall c, at_field c e =
        mean_rounded (map JOB_VALUE
          (filter (fun r => classification_eqb (Classification r) c) (records_of_year l y))))
    (processAverageJobValueByStructureTypeAndYear l).
Proof.
  apply Forall_forall. intros e He.
  destruct (type_average_entry l e He) as [y [Ey Ec]].
  exists y. split; [exact Ey|]. split; [|exact Ec].
  assert (Hp : Permutation (map at_year (processAverageJobValueByStructureTypeAndYear l))
                           (map js_toString (nodup Z.eq_dec (map YEAR l)))).
  { unfold processAverageJobValueByStructureTypeAndYear.
    rewrite (Permutation_map _ (js_sort_perm _ _)).
    rewrite map_map, (map_ext _ fst) by (intros [k s]; reflexivity).
    rewrite type_sums_fold. apply year_keys_perm. }
  assert (Hin : In (at_year e) (map js_toString (nodup Z.eq_dec (map YEAR l)))).
  { apply (Permutation_in _ Hp). now apply in_map. }
  apply in_map_iff in Hin. destruct Hin as [y' [Ey' Hy']].
  rewrite Ey in Ey'. apply js_toString_inj in Ey'. subst y'.
  now apply nodup_In in Hy'.
Qed.

